(** * Notification core of sentry: subscriptions, recipients, digests

    A shallow embedding of
      - [src/sentry/models/groupsubscription.py] (the subscription store and
        the participant resolver), and
      - [src/sentry/mail/adapter.py] (target resolution and the mail
        dispatcher),
    together with the properties the specification states about them.

    Python exceptions are values of [exn]; code that touches the database,
    the cache or the mail transport lives in a state-and-exception monad.
    Django relations are read through plain lists and functions; Python
    sets are [gset Z], dictionaries are [gmap]. *)

From stdpp Require Import base gmap list strings.

#[local] Set Warnings "-clear-no-such-hyp".

Local Open Scope Z_scope.

(** ** Exceptions and the state-and-exception monad *)

Module Py.

(** The exceptions the two modules can raise or let through. *)
Inductive exn : Type :=
| IntegrityError          (* django.db.IntegrityError *)
| NotImplementedError (msg : string)
| ValueError              (* max() of an empty sequence *)
| StopIteration           (* next() of an exhausted iterator *)
| TransportError.         (* anything the mail collaborators raise *)

Inductive result (A : Type) : Type :=
| Ok (a : A)
| Raise (e : exn).
Arguments Ok {A} a.
Arguments Raise {A} e.

(** A computation over a store [S]: it returns or raises, and leaves a
    store behind in both cases. *)
Definition M (S A : Type) : Type := S -> result A * S.

Definition ret {S A} (a : A) : M S A := fun s => (Ok a, s).
Definition raise {S A} (e : exn) : M S A := fun s => (Raise e, s).
Definition bind {S A B} (m : M S A) (k : A -> M S B) : M S B :=
  fun s => match m s with
           | (Ok a, s') => k a s'
           | (Raise e, s') => (Raise e, s')
           end.
Definition get {S} : M S S := fun s => (Ok s, s).
Definition modify {S} (f : S -> S) : M S unit := fun s => (Ok tt, f s).

(** [try: m except e: h] for one exception class. *)
Definition try_except {S A} (m : M S A) (catches : exn -> bool) (h : M S A)
  : M S A :=
  fun s => match m s with
           | (Ok a, s') => (Ok a, s')
           | (Raise e, s') => if catches e then h s' else (Raise e, s')
           end.

Definition is_IntegrityError (e : exn) : bool :=
  match e with IntegrityError => true | _ => false end.

Declare Scope py_scope.
Delimit Scope py_scope with py.
Notation "x <- m ;; k" := (bind m (fun x => k))
  (at level 100, m at next level, right associativity) : py_scope.
Notation "m ;;; k" := (bind m (fun _ => k))
  (at level 100, right associativity) : py_scope.

End Py.
Import Py.
Local Open Scope py_scope.

(** ** Model objects *)

Record User := { user_id : Z; user_is_active : bool }.

(** A team object, with [member_set.values_list("user_id", flat=True)]
    already read from the database. *)
Record Team := { team_id : Z; team_member_user_ids : list Z }.

Record Project := { project_id : Z; organization_id : Z }.

(** [group.project] is a foreign key of the group row. *)
Record Group := { group_id : Z; group_project : Project }.

(** ** [groupsubscription.py] *)

Module GroupSubscriptionReason.
Definition implicit : Z := -1.
Definition committed : Z := -2.
Definition processing_issue : Z := -3.
Definition unknown : Z := 0.
Definition comment : Z := 1.
Definition assigned : Z := 2.
Definition bookmark : Z := 3.
Definition status_change : Z := 4.
Definition deploy_setting : Z := 5.
Definition mentioned : Z := 6.
Definition team_mentioned : Z := 7.
End GroupSubscriptionReason.

(** [sentry.notifications.types], as far as the two modules use it. *)
Inductive NotificationScopeType : Type :=
| DEFAULT_SCOPE | ORGANIZATION | PROJECT.

Inductive NotificationSettingOptionValues : Type :=
| DEFAULT | NEVER | ALWAYS | OTHER_VALUE (code : Z).

Global Instance NotificationScopeType_eq_dec : EqDecision NotificationScopeType.
Proof. solve_decision. Defined.

Global Instance NotificationScopeType_countable : Countable NotificationScopeType.
Proof.
  refine (inj_countable'
            (fun s => match s with
                      | DEFAULT_SCOPE => 0%nat | ORGANIZATION => 1%nat
                      | PROJECT => 2%nat end)
            (fun n => match n with
                      | O => DEFAULT_SCOPE | S O => ORGANIZATION
                      | _ => PROJECT end) _).
  intros []; reflexivity.
Defined.

Global Instance NotificationSettingOptionValues_eq_dec :
  EqDecision NotificationSettingOptionValues.
Proof. solve_decision. Defined.

(** What [transform_to_notification_settings_by_user] returns: for each
    user id, the value set at each scope. *)
Abbreviation SettingsByUser := (gmap Z (gmap NotificationScopeType
                                      NotificationSettingOptionValues)).

(** A row of [sentry_groupsubscription] ([date_added] plays no part). *)
Record GroupSubscription := {
  sub_project : Z;
  sub_group : Z;
  sub_user : Z;
  is_active : bool;
  reason : Z;
}.

(** [unique_together = (("group", "user"),)] *)
Definition same_key (a b : GroupSubscription) : bool :=
  (sub_group a =? sub_group b) && (sub_user a =? sub_user b).

Definition conflicts (tbl : list GroupSubscription) (row : GroupSubscription)
  : bool :=
  existsb (same_key row) tbl.

(** Modelled from the spec: [reason] is declared a
    [BoundedPositiveIntegerField], a class of [sentry.db.models] that is not
    among the sources at hand.  The synthetic reasons, the negative ones,
    are never written to storage (the source marks them "not for use as a
    persisted field value"): the database refuses a row with a negative
    reason, with the same [IntegrityError] as a row that hits the unique
    constraint.  The field is bounded above by [MAX_VALUE]; what it does
    with a larger number happens before any INSERT and is not modelled, nor
    are foreign keys that do not resolve: users, issues and projects are
    rows of their tables.  The properties below that need a row written are
    stated for the reasons the column stores. *)
Definition MAX_VALUE : Z := 2147483647.

Definition storable_reason (reason : Z) : Prop := 0 <= reason <= MAX_VALUE.

(** No row of the table has a synthetic reason. *)
Definition stored_reasons (tbl : list GroupSubscription) : Prop :=
  forall row, In row tbl -> 0 <= reason row.

(** What makes the database refuse an INSERT with [IntegrityError]. *)
Definition refused (tbl : list GroupSubscription) (row : GroupSubscription)
  : bool :=
  (reason row <? 0) || conflicts tbl row.

(** The rows of the table for one (issue, user) pair. *)
Definition rows_for (g u : Z) (tbl : list GroupSubscription)
  : list GroupSubscription :=
  List.filter (fun r => (sub_group r =? g) && (sub_user r =? u)) tbl.

(** The table invariant the unique constraint maintains. *)
Definition unique_together (tbl : list GroupSubscription) : Prop :=
  forall g u, (length (rows_for g u tbl) <= 1)%nat.

(** One attempt of [bulk_subscribe], as the database saw it. *)
Record Attempt := {
  at_query : list GroupSubscription;   (* the table when it was queried *)
  existing : gset Z;                   (* what the query returned *)
  inserted : list GroupSubscription;   (* the rows handed to bulk_create *)
  at_insert : list GroupSubscription;  (* the table when they were inserted *)
  conflict : bool;                     (* did the database refuse them *)
}.

(** The subscription table, with what the model needs to talk about
    concurrent writers: [pending] holds, for each window between a query
    and the insert that follows it, the rows other workers commit in that
    window; [attempts] records the inserts tried so far. *)
Record Store := {
  table : list GroupSubscription;
  pending : list (list GroupSubscription);
  attempts : list Attempt;
}.

Definition with_table (f : list GroupSubscription -> list GroupSubscription)
  (st : Store) : Store :=
  {| table := f (table st); pending := pending st; attempts := attempts st |}.

Module GroupSubscriptionManager.

(** [self.create(...)]: one INSERT, which the database may refuse. *)
Definition create (row : GroupSubscription) : M Store unit :=
  fun st =>
    if refused (table st) row then (Raise IntegrityError, st)
    else (Ok tt, with_table (fun t => t ++ [row]) st).

(** [with transaction.atomic():] an exception rolls the table back. *)
Definition atomic {A} (m : M Store A) : M Store A :=
  fun st => match m st with
            | (Ok a, st') => (Ok a, st')
            | (Raise e, st') =>
                (Raise e, with_table (fun _ => table st) st')
            end.

(** [subscribe]; Python's [None] is [None] here too. *)
Definition subscribe (group : Group) (user : User) (reason : Z)
  : M Store (option bool) :=
  try_except
    (atomic
       (create {| sub_project := project_id (group_project group);
                  sub_group := group_id group;
                  sub_user := user_id user;
                  is_active := true;
                  reason := reason |}) ;;;
     ret None)
    is_IntegrityError
    (ret None).

(** [self.bulk_create(subscriptions)]: the rows go in one by one, each
    checked against the table and the rows before it. *)
Fixpoint bulk_create (rows : list GroupSubscription) : M Store unit :=
  match rows with
  | [] => ret tt
  | r :: rs => create r ;;; bulk_create rs
  end.

(** Other workers commit the rows of the next window; a row of theirs that
    the database refuses is refused to them. *)
Definition commit_one (t : list GroupSubscription) (r : GroupSubscription)
  : list GroupSubscription :=
  if refused t r then t else t ++ [r].

Definition commit_others : M Store unit :=
  fun st =>
    match pending st with
    | [] => (Ok tt, st)
    | batch :: rest =>
        (Ok tt, {| table := foldl commit_one (table st) batch;
                   pending := rest;
                   attempts := attempts st |})
    end.

Definition record_attempt (a : Attempt) : M Store unit :=
  modify (fun st => {| table := table st; pending := pending st;
                       attempts := attempts st ++ [a] |}).

(** [GroupSubscription.objects.filter(user_id__in=user_ids, group=group,
    project=group.project).values_list("user_id", flat=True)], as a set. *)
Definition existing_subscriptions (group : Group) (user_ids : gset Z)
  (tbl : list GroupSubscription) : gset Z :=
  list_to_set
    (map sub_user
       (List.filter
          (fun r => bool_decide (sub_user r ∈ user_ids)
                    && (sub_group r =? group_id group)
                    && (sub_project r =? project_id (group_project group)))
          tbl)).

Definition new_subscriptions (group : Group) (user_ids existing : gset Z)
  (reason : Z) : list GroupSubscription :=
  map (fun u => {| sub_project := project_id (group_project group);
                   sub_group := group_id group;
                   sub_user := u;
                   is_active := true;
                   reason := reason |})
      (List.filter (fun u => negb (bool_decide (u ∈ existing)))
                   (elements user_ids)).

(** The body of the [for i in range(4, -1, -1)] loop, over the values of
    [i] still to come.  The [try] yields [Some v] when the function
    returns [v] and [None] when the loop goes on. *)
Fixpoint bulk_subscribe_loop (range : list Z) (group : Group)
  (user_ids : gset Z) (reason : Z) : M Store (option bool) :=
  match range with
  | [] => ret None
  | i :: range' =>
      st0 <- get ;;
      let existing := existing_subscriptions group user_ids (table st0) in
      let subscriptions := new_subscriptions group user_ids existing reason in
      commit_others ;;;
      st1 <- get ;;
      let attempt c := {| at_query := table st0; existing := existing;
                          inserted := subscriptions;
                          at_insert := table st1; conflict := c |} in
      returned <-
        try_except
          (atomic (bulk_create subscriptions) ;;;
           record_attempt (attempt false) ;;;
           ret (Some (Some true)))
          is_IntegrityError
          (record_attempt (attempt true) ;;;
           if i =? 0 then raise IntegrityError else ret None) ;;
      match returned with
      | Some v => ret v
      | None => bulk_subscribe_loop range' group user_ids reason
      end
  end.

Definition bulk_subscribe (group : Group) (user_ids : list Z) (reason : Z)
  : M Store (option bool) :=
  let user_ids : gset Z := list_to_set user_ids in
  bulk_subscribe_loop [4; 3; 2; 1; 0] group user_ids reason.

(** What [subscribe_actor] can be handed: a [User], a [Team], or an object
    of some other class. *)
Inductive Actor : Type :=
| ActorUser (u : User)
| ActorTeam (t : Team)
| ActorOther (type_repr : string).

Definition subscribe_actor (group : Group) (actor : Actor) (reason : Z)
  : M Store (option bool) :=
  match actor with
  | ActorUser u => subscribe group u reason
  | ActorTeam t =>
      let team_users_ids := team_member_user_ids t in
      bulk_subscribe group team_users_ids reason
  | ActorOther ty =>
      raise (NotImplementedError ("Unknown actor type: " +:+ ty))
  end.

(** Modelled from the spec: [sentry.notifications.helpers] is not part of
    the sources at hand.  The setting of a user is the one at the most
    specific scope that has one (project, then organization, then the
    default scope); a user with none has the default value. *)
Definition resolved_setting (settings : SettingsByUser) (user : User)
  : NotificationSettingOptionValues :=
  match settings !! user_id user with
  | None => DEFAULT
  | Some by_scope =>
      match by_scope !! PROJECT with
      | Some v => v
      | None =>
          match by_scope !! ORGANIZATION with
          | Some v => v
          | None => default DEFAULT (by_scope !! DEFAULT_SCOPE)
          end
      end
  end.

(** Modelled from the spec: [should_be_participating] of
    [sentry.notifications.helpers].  A user with a subscription row
    participates when the row is active and the setting is not "never";
    a user without one participates when the setting is "always". *)
Definition should_be_participating (user : User)
  (subscriptions_by_user_id : gmap Z GroupSubscription)
  (notification_settings_by_user : SettingsByUser) : bool :=
  let value := resolved_setting notification_settings_by_user user in
  match subscriptions_by_user_id !! user_id user with
  | Some subscription =>
      is_active subscription && negb (bool_decide (value = NEVER))
  | None => bool_decide (value = ALWAYS)
  end.

(** [get_participants].  [users] is [User.objects.get_from_group(group)]
    and [notification_settings_by_user] the workflow settings of these
    users for the project of the issue, both read by collaborators.  The
    result maps the id of each participating user to a reason. *)
Definition get_participants (users : list User)
  (notification_settings_by_user : SettingsByUser)
  (group : Group) (tbl : list GroupSubscription) : gmap Z Z :=
  let user_ids := map user_id users in
  let subscriptions :=
    List.filter (fun r => (sub_group r =? group_id group)
                          && bool_decide (sub_user r ∈ user_ids)) tbl in
  let subscriptions_by_user_id : gmap Z GroupSubscription :=
    foldl (fun m s => <[sub_user s := s]> m) ∅ subscriptions in
  foldl
    (fun out user =>
       if should_be_participating user subscriptions_by_user_id
            notification_settings_by_user
       then <[user_id user :=
                match subscriptions_by_user_id !! user_id user with
                | Some s => reason s
                | None => GroupSubscriptionReason.implicit
                end]> out
       else out)
    ∅ users.

End GroupSubscriptionManager.


(** ** [mail/adapter.py] *)

Inductive ActionTargetType : Type := ISSUE_OWNERS | TEAM | MEMBER.

Global Instance ActionTargetType_eq_dec : EqDecision ActionTargetType.
Proof. solve_decision. Defined.

Record Rule := { rule_id : Z; rule_label : string }.

(** A rule future; [future.kwargs] is a dictionary, empty when the rule
    passes no arguments. *)
Record Future := { future_rule : Rule; future_kwargs : list (string * Z) }.

(** An event: [event.group], the payload [event.data] the ownership rules
    read (kept opaque), and its time stamp. *)
Record Event := {
  event_id : Z;
  event_group : Group;
  event_data : Z;
  event_timestamp : Z;
}.

(** [sentry.plugins.base.structs.Notification] *)
Record Notification := { n_event : Event; n_rules : list Rule }.

(** Modelled from the spec: a digest record carries the time stamp, the
    event and the rules that matched ([sentry.digests] is not part of the
    sources at hand); time stamps are numbers, compared as such. *)
Record DigestRecord := { timestamp : Z; value : Notification }.

(** Modelled from the spec: [event_to_record] of
    [sentry.digests.notifications] makes the record of an event and the
    rules that matched it, stamped with the time of the event. *)
Definition event_to_record (event : Event) (rules : list Rule) : DigestRecord :=
  {| timestamp := event_timestamp event;
     value := {| n_event := event; n_rules := rules |} |}.

(** Modelled from the spec: the digest key is the identity (project, target
    type, target identifier). *)
Record DigestKey := {
  key_project : Z;
  key_target_type : ActionTargetType;
  key_target_identifier : option Z;
}.

Global Instance DigestKey_eq_dec : EqDecision DigestKey.
Proof. solve_decision. Defined.

(** Modelled from the spec: [unsplit_key] of [sentry.digests.notifications]
    derives the key from the project, the target type and the target
    identifier. *)
Definition unsplit_key (project : Project) (target_type : ActionTargetType)
  (target_identifier : option Z) : DigestKey :=
  {| key_project := project_id project;
     key_target_type := target_type;
     key_target_identifier := target_identifier |}.

(** A digest: for each rule, in order, the records of each group. *)
Definition Digest : Type := list (Rule * list (Group * list DigestRecord)).

(** What [ProjectOwnership.get_owners] answers. *)
Inductive OwnerType : Type := OwnerUser | OwnerTeam.

Global Instance OwnerType_eq_dec : EqDecision OwnerType.
Proof. solve_decision. Defined.

Record Owner := { owner_type : OwnerType; owner_id : Z }.
Inductive Owners : Type :=
| Everyone
| OwnerList (owners : list Owner).

(** What a function of the adapter returns where Python has a list in one
    branch and a set in another. *)
Inductive Collection : Type :=
| PyList (l : list Z)
| PySet (s : gset Z).

(** [set(send_to)] *)
Definition to_set (c : Collection) : gset Z :=
  match c with
  | PyList l => list_to_set l
  | PySet s => s
  end.

(** The parts of a message the dispatcher decides. *)
Inductive Reference : Type :=
| RefGroup (g : Group)
| RefProject (p : Project).

Inductive Subject : Type :=
| EventSubject (e : Event)                       (* event.get_email_subject() *)
| DigestSubject (g : Group) (count : nat) (start : option Z).

Record UnsubscribeLink := {
  link_user : Z; link_project : Z; link_referrer : string;
}.

Inductive Context : Type :=
| AlertContext (event : Event) (rules : list Rule) (link : UnsubscribeLink)
| DigestContext (start stop : option Z) (digest : Digest)
    (counts : list (Group * nat)) (link : UnsubscribeLink).

Record Mail := {
  mail_subject : Subject;
  mail_template : string;
  mail_html_template : string;
  mail_type : string;
  mail_reference : Reference;
  mail_context : Context;
  mail_to : list Z;
}.

(** What the dispatcher changes: the cache of [sentry.utils.cache], the
    digest buffer, the flushes queued with
    [deliver_digest.delay], and the messages handed to [send_async] (each
    one is listed, whether the transport took it or raised). *)
Record World := {
  cache : gmap Z (list Z);
  timelines : list (DigestKey * DigestRecord);
  delayed : list DigestKey;
  outbox : list Mail;
}.

(** What the dispatcher reads from its collaborators. *)
Record Env := {
  (* digests.enabled(project) *)
  digests_enabled : Project -> bool;
  (* ProjectOption.objects.get_value(project, "mail:digests:<key>") *)
  get_digest_option : Project -> string -> option Z;
  (* what digests.add reports, from the buffer, the key, the record and the
     two delays *)
  immediate_delivery :
    list (DigestKey * DigestRecord) -> DigestKey -> DigestRecord ->
    option Z -> option Z -> bool;
  (* NotificationSetting.objects.get_notification_recipients(EMAIL, project) *)
  get_notification_recipients : Project -> list User;
  (* ProjectOwnership.get_owners(project.id, event.data), first component *)
  get_owners : Z -> Z -> Owners;
  (* auth_user: primary key -> is_active *)
  auth_user : gmap Z bool;
  (* organization members and their teams: (user id, team id) *)
  organizationmemberteam : list (Z * Z);
  (* sentry_projectteam: (project id, team id) *)
  projectteam : list (Z * Z);
  (* team.member_set.values_list("user_id", flat=True) *)
  team_member_set : Z -> list Z;
  (* project.member_set.values_list("user", flat=True) *)
  project_member_set : Project -> list Z;
  (* the issue-alert settings of the users of a project, by user *)
  issue_alert_settings : Project -> SettingsByUser;
  (* sentry.digests.utilities.get_personalized_digests *)
  get_personalized_digests :
    ActionTargetType -> Z -> Digest -> gset Z -> list (Z * Digest);
  (* does handing this message to the transport raise *)
  send_async_raises : Mail -> bool;
}.

Definition set_cache (k : Z) (v : list Z) (w : World) : World :=
  {| cache := <[k := v]> (cache w); timelines := timelines w;
     delayed := delayed w; outbox := outbox w |}.

Definition push_timeline (k : DigestKey) (r : DigestRecord) (w : World) : World :=
  {| cache := cache w; timelines := timelines w ++ [(k, r)];
     delayed := delayed w; outbox := outbox w |}.

Definition push_delayed (k : DigestKey) (w : World) : World :=
  {| cache := cache w; timelines := timelines w;
     delayed := delayed w ++ [k]; outbox := outbox w |}.

Definition push_outbox (m : Mail) (w : World) : World :=
  {| cache := cache w; timelines := timelines w;
     delayed := delayed w; outbox := outbox w ++ [m] |}.

(** [for x in l: body(x)] *)
Fixpoint for_each {S A} (l : list A) (body : A -> M S unit) : M S unit :=
  match l with
  | [] => ret tt
  | x :: xs => body x ;;; for_each xs body
  end.

(** [max(records, key=lambda record: record.timestamp)]: the first of the
    records with the greatest time stamp; [ValueError] on no record. *)
Definition max_by_timestamp (records : list DigestRecord) : option DigestRecord :=
  match records with
  | [] => None
  | r :: rs =>
      Some (foldl (fun best x => if timestamp best <? timestamp x then x else best)
                  r rs)
  end.

(** [groups.get(group, [])] *)
Fixpoint groups_get (groups : list (Group * list DigestRecord)) (group : Group)
  : list DigestRecord :=
  match groups with
  | [] => []
  | (g, records) :: rest =>
      if group_id g =? group_id group then records else groups_get rest group
  end.

(** [counts[group] += n] on a counter that keeps the order of first use. *)
Fixpoint tally (group : Group) (n : nat) (counts : list (Group * nat))
  : list (Group * nat) :=
  match counts with
  | [] => [(group, n)]
  | (g, m) :: rest =>
      if group_id g =? group_id group then (g, (m + n)%nat) :: rest
      else (g, m) :: tally group n rest
  end.

Definition digest_records (digest : Digest) : list DigestRecord :=
  concat (map snd (concat (map snd digest))).

Definition timestamp_bound (pick : Z -> Z -> Z) (records : list DigestRecord)
  : option Z :=
  match records with
  | [] => None
  | r :: rs => Some (foldl (fun b x => pick b (timestamp x)) (timestamp r) rs)
  end.

(** Modelled from the spec: [get_digest_metadata] of
    [sentry.digests.utilities], which is not part of the sources at hand.
    Start and end are the least and the greatest time stamp of the records;
    [counts] tallies, per group, the records of that group across the
    rules. *)
Definition get_digest_metadata (digest : Digest)
  : option Z * option Z * list (Group * nat) :=
  (timestamp_bound Z.min (digest_records digest),
   timestamp_bound Z.max (digest_records digest),
   foldl (fun counts gr => tally (fst gr) (length (snd gr)) counts)
         [] (concat (map snd digest))).

Module MailAdapter.
Section Adapter.

Variable env : Env.

Definition get_sendable_user_objects (project : Project) : list User :=
  get_notification_recipients env project.

Definition get_sendable_user_ids (project : Project) : list Z :=
  map user_id (get_sendable_user_objects project).

(** [should_notify] returns [True] or the collection of users. *)
Definition should_notify (target_type : ActionTargetType) (group : Group)
  : bool + list User :=
  if bool_decide (target_type = MEMBER) then inl true
  else inr (get_sendable_user_objects (group_project group)).

(** The truth value Python gives the result of [should_notify]. *)
Definition truthy (v : bool + list User) : bool :=
  match v with
  | inl b => b
  | inr [] => false
  | inr (_ :: _) => true
  end.

Definition user_is_active_in_db (u : Z) : bool :=
  match auth_user env !! u with
  | Some true => true
  | _ => false
  end.

Definition team_in_project (project : Project) (t : Z) : bool :=
  existsb (fun pt => (fst pt =? project_id project) && (snd pt =? t))
          (projectteam env).

(** [project.teams.exists()] *)
Definition project_teams_exist (project : Project) : bool :=
  existsb (fun pt => fst pt =? project_id project) (projectteam env).

Definition disabled_users_from_project (project : Project) : gset Z :=
  let user_ids := project_member_set env project in
  let users :=
    List.filter (fun u => bool_decide (u ∈ dom (auth_user env))) user_ids in
  let notification_settings_by_user := issue_alert_settings env project in
  foldl
    (fun output user =>
       match notification_settings_by_user !! user with
       | Some settings =>
           if bool_decide (settings ≠ ∅) then
             if bool_decide (settings !! PROJECT = Some NEVER)
             then output ∪ {[user]} else output
           else output
       | None => output
       end)
    ∅ users.

Definition get_send_to_team (project : Project) (target_identifier : option Z)
  : Collection :=
  match target_identifier with
  | None => PyList []
  | Some t =>
      if team_in_project project t then
        PySet (list_to_set (team_member_set env t)
                 ∖ disabled_users_from_project project)
      else PySet ∅
  end.

(** [User.objects.filter(id=..., sentry_orgmember_set__teams__projectteam__project=project)]
    finds the user with this primary key when one of the teams the user
    is a member of is a team of the project.  Target identifiers are the
    numbers [int(target_identifier)] reads. *)
Definition member_of_project (project : Project) (u : Z) : bool :=
  bool_decide (u ∈ dom (auth_user env))
  && existsb (fun ut => (fst ut =? u) && team_in_project project (snd ut))
             (organizationmemberteam env).

Definition get_send_to_member (project : Project) (target_identifier : option Z)
  : Collection :=
  match target_identifier with
  | None => PyList []
  | Some u =>
      if member_of_project project u then PySet {[u]} else PySet ∅
  end.

(** [get_send_to_all_in_project].  The users are objects, which Python
    takes for true, so [if user] keeps them all; the time the cache keeps an
    entry is not modelled, an entry is there or it is not. *)
Definition get_send_to_all_in_project (project : Project) : M World (list Z) :=
  w <- get ;;
  match cache w !! project_id project with
  | Some send_to_list => ret send_to_list
  | None =>
      let users := get_sendable_user_objects project in
      let send_to_list := map user_id users in
      modify (set_cache (project_id project) send_to_list) ;;;
      ret send_to_list
  end.

(** [User.objects.filter(is_active=True,
    sentry_orgmember_set__organizationmemberteam__team__id__in=teams)] *)
Definition active_users_in_teams (teams : gset Z) : gset Z :=
  list_to_set
    (map fst
       (List.filter
          (fun ut => user_is_active_in_db (fst ut)
                     && bool_decide (snd ut ∈ teams))
          (organizationmemberteam env))).

Definition get_send_to_owners (event : Event) (project : Project)
  : M World Collection :=
  match get_owners env (project_id project) (event_data event) with
  | OwnerList owners =>
      match owners with
      | [] => ret (PySet ∅)
      | _ =>
          let '(send_to, teams_to_resolve) :=
            foldl (fun acc owner =>
                     match owner_type owner with
                     | OwnerUser => (fst acc ∪ {[owner_id owner]}, snd acc)
                     | OwnerTeam => (fst acc, snd acc ∪ {[owner_id owner]})
                     end)
                  ((∅ : gset Z), (∅ : gset Z)) owners in
          let send_to :=
            if bool_decide (teams_to_resolve ≠ ∅)
            then send_to ∪ active_users_in_teams teams_to_resolve
            else send_to in
          ret (PySet (send_to ∖ disabled_users_from_project project))
      end
  | Everyone =>
      l <- get_send_to_all_in_project project ;; ret (PyList l)
  end.

Definition get_send_to (project : option Project)
  (target_type : ActionTargetType) (target_identifier : option Z)
  (event : option Event) : M World (gset Z) :=
  match project with
  | None => ret ∅
  | Some project =>
      if negb (project_teams_exist project) then ret ∅
      else
        send_to <-
          match target_type with
          | ISSUE_OWNERS =>
              match event with
              | None => l <- get_send_to_all_in_project project ;;
                        ret (PyList l)
              | Some event => get_send_to_owners event project
              end
          | MEMBER => ret (get_send_to_member project target_identifier)
          | TEAM => ret (get_send_to_team project target_identifier)
          end ;;
        ret (to_set send_to)
  end.

Definition add_unsubscribe_link (user_id : Z) (project : Project)
  (referrer : string) : UnsubscribeLink :=
  {| link_user := user_id; link_project := project_id project;
     link_referrer := referrer |}.

(** [_build_message]: no message when there is nobody to send to.  The
    subject prefix and the headers are not kept. *)
Definition _build_message (subject : Subject) (template html_template : string)
  (project : Project) (reference : Reference) (type : string)
  (context : Context) (send_to : list Z) : option Mail :=
  match send_to with
  | [] => None
  | _ => Some {| mail_subject := subject;
                 mail_template := template;
                 mail_html_template := html_template;
                 mail_type := type;
                 mail_reference := reference;
                 mail_context := context;
                 mail_to := send_to |}
  end.

(** [message.send_async()] *)
Definition send_async (m : Mail) : M World unit :=
  modify (push_outbox m) ;;;
  if send_async_raises env m then raise TransportError else ret tt.

Definition _send_mail (subject : Subject) (template html_template : string)
  (project : Project) (reference : Reference) (type : string)
  (context : Context) (send_to : list Z) : M World unit :=
  match _build_message subject template html_template project reference
          type context send_to with
  | Some message => send_async message
  | None => ret tt
  end.

(** [notify].  Of the context only the event, the rules and the
    unsubscribe link are kept; the commits, the interfaces and the headers
    are the same for every recipient and are computed before the loop.
    Python fixes no order for walking a set; the loop here walks it in the
    order of [elements]. *)
Definition notify (notification : Notification)
  (target_type : ActionTargetType) (target_identifier : option Z)
  : M World unit :=
  let event := n_event notification in
  let group := event_group event in
  let project := group_project group in
  let subject := EventSubject event in
  let template := "sentry/emails/error.txt" in
  let html_template := "sentry/emails/error.html" in
  send_to <- get_send_to (Some project) target_type target_identifier
               (Some event) ;;
  for_each (elements send_to)
    (fun user_id =>
       let context :=
         AlertContext event (n_rules notification)
           (add_unsubscribe_link user_id project "alert_email") in
       _send_mail subject template html_template project (RefGroup group)
         "notify.error" context [user_id]).

Definition get_digest_subject (group : Group) (counts : list (Group * nat))
  (date : option Z) : Subject :=
  DigestSubject group (length counts) date.

(** The loop of [notify_digest] over the personalized digests.  With one
    group in [counts] the function returns what [notify] returns, and the
    digests that follow are not looked at. *)
Fixpoint notify_digest_loop (personalized : list (Z * Digest))
  (project : Project) (target_type : ActionTargetType)
  (target_identifier : option Z) : M World unit :=
  match personalized with
  | [] => ret tt
  | (user_id, digest) :: rest =>
      let '(start, stop, counts) := get_digest_metadata digest in
      match counts with
      | [(group, _)] =>
          match max_by_timestamp
                  (concat (map (fun rg => groups_get (snd rg) group) digest))
          with
          | None => raise ValueError
          | Some record =>
              let notification :=
                {| n_event := n_event (value record);
                   n_rules := n_rules (value record) |} in
              notify notification target_type target_identifier
          end
      | [] => raise StopIteration
      | (group, _) :: _ =>
          let subject := get_digest_subject group counts start in
          let context :=
            DigestContext start stop digest counts
              (add_unsubscribe_link user_id project "alert_digest") in
          _send_mail subject "sentry/emails/digests/body.txt"
            "sentry/emails/digests/body.html" project (RefProject project)
            "notify.digest" context [user_id] ;;;
          notify_digest_loop rest project target_type target_identifier
      end
  end.

Definition notify_digest (project : Project) (digest : Digest)
  (target_type : ActionTargetType) (target_identifier : option Z)
  : M World unit :=
  user_ids <- get_send_to (Some project) target_type target_identifier None ;;
  notify_digest_loop
    (get_personalized_digests env target_type (project_id project) digest
       user_ids)
    project target_type target_identifier.

(** The loop of [rule_notify] over the futures: the rules seen so far, or
    the exception a future with arguments raises. *)
Fixpoint collect_rules (futures : list Future) (rules : list Rule)
  : result (list Rule) :=
  match futures with
  | [] => Ok rules
  | future :: futures' =>
      let rules := rules ++ [future_rule future] in
      match future_kwargs future with
      | [] => collect_rules futures' rules
      | _ => Raise (NotImplementedError
               "The default behavior for notification de-duplication does not support args")
      end
  end.

(** Modelled from the spec: [digests.add] appends the record to the
    buffer of the key; what it reports is the answer of the backend. *)
Definition digests_add (key : DigestKey) (record : DigestRecord)
  (increment_delay maximum_delay : option Z) : M World bool :=
  w <- get ;;
  modify (push_timeline key record) ;;;
  ret (immediate_delivery env (timelines w) key record
         increment_delay maximum_delay).

(** [deliver_digest.delay(digest_key)] *)
Definition deliver_digest_delay (key : DigestKey) : M World unit :=
  modify (push_delayed key).

(** [rule_notify].  The function returns nothing; what is returned here is
    the [log_event] of the line it logs last. *)
Definition rule_notify (event : Event) (futures : list Future)
  (target_type : ActionTargetType) (target_identifier : option Z)
  : M World string :=
  match collect_rules futures [] with
  | Raise e => raise e
  | Ok rules =>
      let project := group_project (event_group event) in
      if digests_enabled env project then
        let get_digest_option := get_digest_option env project in
        let digest_key := unsplit_key project target_type target_identifier in
        immediate <- digests_add digest_key (event_to_record event rules)
                       (get_digest_option "increment_delay")
                       (get_digest_option "maximum_delay") ;;
        if (immediate : bool) then
          deliver_digest_delay digest_key ;;; ret "dispatched"
        else ret "digested"
      else
        let notification := {| n_event := event; n_rules := rules |} in
        notify notification target_type target_identifier ;;;
        ret "dispatched"
  end.

End Adapter.
End MailAdapter.

(** ** One iteration of [bulk_subscribe] in closed form

    What an iteration of the retry loop records and what it leaves behind,
    written without the monad; [bulk_subscribe_loop_step] below shows that
    the loop does exactly this. *)

(** Does the database refuse the [bulk_create] of these rows. *)
Fixpoint batch_conflicts (tbl : list GroupSubscription)
  (rows : list GroupSubscription) : bool :=
  match rows with
  | [] => false
  | r :: rs => refused tbl r || batch_conflicts (tbl ++ [r]) rs
  end.

Definition attempt_of (group : Group) (user_ids : gset Z) (reason : Z)
  (st : Store) : Attempt :=
  let existing :=
    GroupSubscriptionManager.existing_subscriptions group user_ids (table st) in
  let subscriptions :=
    GroupSubscriptionManager.new_subscriptions group user_ids existing reason in
  let st1 := snd (GroupSubscriptionManager.commit_others st) in
  {| at_query := table st;
     existing := existing;
     inserted := subscriptions;
     at_insert := table st1;
     conflict := batch_conflicts (table st1) subscriptions |}.

Definition after_attempt (group : Group) (user_ids : gset Z) (reason : Z)
  (st : Store) : Store :=
  let a := attempt_of group user_ids reason st in
  {| table := if conflict a then at_insert a else at_insert a ++ inserted a;
     pending := tail (pending st);
     attempts := attempts st ++ [a] |}.

(** ** The messages of the dispatcher in closed form *)

(** What [notify] hands to the transport for one recipient. *)
Definition alert_mail (notification : Notification) (user_id : Z) : Mail :=
  let event := n_event notification in
  let group := event_group event in
  {| mail_subject := EventSubject event;
     mail_template := "sentry/emails/error.txt";
     mail_html_template := "sentry/emails/error.html";
     mail_type := "notify.error";
     mail_reference := RefGroup group;
     mail_context :=
       AlertContext event (n_rules notification)
         (MailAdapter.add_unsubscribe_link user_id (group_project group)
            "alert_email");
     mail_to := [user_id] |}.

(** What [notify_digest] hands to the transport for one recipient whose
    digest is rendered as a digest, that is, counts two groups or more. *)
Definition digest_mail (project : Project) (user_id : Z) (digest : Digest)
  : option Mail :=
  let '(start, stop, counts) := get_digest_metadata digest in
  match counts with
  | (group, _) :: _ :: _ =>
      Some {| mail_subject := MailAdapter.get_digest_subject group counts start;
              mail_template := "sentry/emails/digests/body.txt";
              mail_html_template := "sentry/emails/digests/body.html";
              mail_type := "notify.digest";
              mail_reference := RefProject project;
              mail_context :=
                DigestContext start stop digest counts
                  (MailAdapter.add_unsubscribe_link user_id project
                     "alert_digest");
              mail_to := [user_id] |}
  | _ => None
  end.

Definition digest_mails (project : Project) (personalized : list (Z * Digest))
  : list Mail :=
  omap (fun ud => digest_mail project (fst ud) (snd ud)) personalized.

(** Of a run of messages handed to the transport one after the other, the
    ones that are handed over: all up to the first that makes it raise,
    that one included. *)
Fixpoint handed_over (env : Env) (mails : list Mail) : list Mail :=
  match mails with
  | [] => []
  | m :: rest =>
      m :: (if send_async_raises env m then [] else handed_over env rest)
  end.

Definition with_outbox (o : list Mail) (w : World) : World :=
  {| cache := cache w; timelines := timelines w; delayed := delayed w;
     outbox := o |}.

(** ** Issue owners, in the words of the specification

    The recipients of an explicit owner list as the specification words
    them: the direct user owners and the member user ids of the team
    owners, less the users who disabled issue alerts for the project.  To
    be compared with what [get_send_to_owners] computes. *)
Definition team_member_ids (env : Env) (teams : gset Z) : gset Z :=
  list_to_set
    (map fst (List.filter (fun ut => bool_decide (snd ut ∈ teams))
                          (organizationmemberteam env))).

Definition owners_of_type (ty : OwnerType) (owners : list Owner) : gset Z :=
  list_to_set
    (map owner_id
         (List.filter (fun o => bool_decide (owner_type o = ty)) owners)).

Definition stated_owner_recipients (env : Env) (project : Project)
  (owners : list Owner) : gset Z :=
  (owners_of_type OwnerUser owners
     ∪ team_member_ids env (owners_of_type OwnerTeam owners))
    ∖ MailAdapter.disabled_users_from_project env project.

(** ** [eventstore/processing/base.py] *)

Module BaseEventProcessingStore.
Section Store.

(** [Event = Any]; [cache_key_for_event] of [sentry.utils.cache] is read as
    a function from events to keys. *)
Context {Event : Type}.
Variable cache_key_for_event : Event -> string.

Definition DEFAULT_TIMEOUT : Z := 60 * 60 * 24.

(** Modelled from the spec: the [KVStorage] behind the store is a cache
    that holds at most one value for a key; [set] keeps the value with its
    time to live, [get] reads it and [delete] drops it.  The passing of time
    is not modelled, so nothing expires.  [inner] is the content of
    [self.inner] and [timeout] the seconds of [self.timeout]. *)
Record Self := { inner : gmap string (Event * Z); timeout : Z }.

(** [__init__(self, inner, timeout=DEFAULT_TIMEOUT)] *)
Definition __init__ (inner : gmap string (Event * Z)) (timeout : option Z)
  : Self :=
  {| inner := inner; timeout := default DEFAULT_TIMEOUT timeout |}.

Definition __get_unprocessed_key (key : string) : string := key +:+ ":u".

(** [store] returns the key and leaves the changed storage behind. *)
Definition store (self : Self) (event : Event) (unprocessed : bool)
  : string * Self :=
  let key := cache_key_for_event event in
  let key := if unprocessed then __get_unprocessed_key key else key in
  (key, {| inner := <[key := (event, timeout self)]> (inner self);
           timeout := timeout self |}).

Definition get (self : Self) (key : string) (unprocessed : bool)
  : option Event :=
  let key := if unprocessed then __get_unprocessed_key key else key in
  fst <$> inner self !! key.

Definition delete_by_key (self : Self) (key : string) : Self :=
  {| inner := delete (__get_unprocessed_key key) (delete key (inner self));
     timeout := timeout self |}.

Definition delete (self : Self) (event : Event) : Self :=
  let key := cache_key_for_event event in
  delete_by_key self key.

End Store.
End BaseEventProcessingStore.

(** ** [handle_user_report] and [handle_signal] of [mail/adapter.py] *)

(** [GroupSubscriptionReason.descriptions] *)
Definition descriptions : gmap Z string :=
  list_to_map
    [ (GroupSubscriptionReason.implicit,
       "have opted to receive updates for all issues within projects that you are a member of");
      (GroupSubscriptionReason.committed,
       "were involved in a commit that is part of this release");
      (GroupSubscriptionReason.processing_issue,
       "are subscribed to alerts for this project");
      (GroupSubscriptionReason.comment, "have commented on this issue");
      (GroupSubscriptionReason.assigned, "have been assigned to this issue");
      (GroupSubscriptionReason.bookmark, "have bookmarked this issue");
      (GroupSubscriptionReason.status_change,
       "have changed the resolution status of this issue");
      (GroupSubscriptionReason.deploy_setting,
       "opted to receive all deploy notifications for this organization");
      (GroupSubscriptionReason.mentioned, "have been mentioned in this issue");
      (GroupSubscriptionReason.team_mentioned,
       "are a member of a team mentioned in this issue") ].

(** The parts of the payload the handler reads:
    [payload["report"]["issue"]["id"]] and [payload["report"]["name"]]. *)
Record UserReport := { report_issue_id : Z; report_name : string }.

(** The parts of a feedback message the handler decides. *)
Record ReportMail := {
  rm_subject : string;
  rm_template : string;
  rm_html_template : string;
  rm_type : string;
  rm_reference : Group;
  rm_reason : string;                (* context["reason"] *)
  rm_unsubscribe : Z * Z;            (* the user and the issue of the link *)
  rm_to : list Z;                    (* msg.add_users([user.id], ...) *)
}.

(** What the handler reads from its collaborators. *)
Record ReportEnv := {
  (* sentry_groupedmessage: primary key -> group *)
  report_groups : gmap Z Group;
  (* User.objects.get_from_group(group) *)
  report_users : Group -> list User;
  (* the workflow settings of these users for the project, by user *)
  report_settings : Group -> SettingsByUser;
  (* group.qualified_short_id *)
  qualified_short_id : Group -> string;
  (* ProjectOption.objects.get_value(project, "mail:subject_prefix", None) *)
  project_subject_prefix : Project -> option string;
  (* options.get("mail.subject-prefix") *)
  global_subject_prefix : string;
  (* does handing this message to the transport raise *)
  report_send_raises : ReportMail -> bool;
}.

(** How a call of the handler ends. *)
Inductive ReportOutcome : Type :=
| Returned
| GroupDoesNotExist        (* Group.DoesNotExist of [Group.objects.get] *)
| TransportRaised.         (* what [msg.send_async()] raised *)

(** The keys of a dictionary built by walking [l]: each value once, at the
    place of its first occurrence. *)
Fixpoint first_occurrences (seen : gset Z) (l : list Z) : list Z :=
  match l with
  | [] => []
  | x :: l =>
      if bool_decide (x ∈ seen) then first_occurrences seen l
      else x :: first_occurrences ({[x]} ∪ seen) l
  end.

(** [participants.items()]: the participants in the order in which the
    dictionary comprehension of [get_participants] met them. *)
Definition participants_items (users : list User) (participants : gmap Z Z)
  : list (Z * Z) :=
  omap (fun u => (fun r => (u, r)) <$> participants !! u)
       (first_occurrences ∅ (map user_id users)).

Module UserReports.
Section Handler.

Variable renv : ReportEnv.

(** [_build_subject_prefix]: an unset or empty project prefix gives way to
    the global one. *)
Definition _build_subject_prefix (project : Project) : string :=
  match project_subject_prefix renv project with
  | Some subject_prefix =>
      if String.eqb subject_prefix "" then global_subject_prefix renv
      else subject_prefix
  | None => global_subject_prefix renv
  end.

(** The loop over the participants: the messages handed to the transport,
    up to the first that makes it raise. *)
Fixpoint send_reports (mails : list ReportMail) : ReportOutcome * list ReportMail :=
  match mails with
  | [] => (Returned, [])
  | m :: rest =>
      if report_send_raises renv m then (TransportRaised, [m])
      else let '(outcome, sent) := send_reports rest in (outcome, m :: sent)
  end.

(** [handle_user_report(payload, project)], over the subscription table:
    how the call ends and the messages it handed to the transport. *)
Definition handle_user_report (payload : UserReport) (project : Project)
  (tbl : list GroupSubscription) : ReportOutcome * list ReportMail :=
  match report_groups renv !! report_issue_id payload with
  | None => (GroupDoesNotExist, [])
  | Some group =>
      let users := report_users renv group in
      let participants :=
        GroupSubscriptionManager.get_participants users
          (report_settings renv group) group tbl in
      if bool_decide (participants = ∅) then (Returned, [])
      else
        let subject_prefix := _build_subject_prefix project in
        let subject :=
          subject_prefix +:+ qualified_short_id renv group
            +:+ " - New Feedback from " +:+ report_name payload in
        send_reports
          (map (fun item =>
                  {| rm_subject := subject;
                     rm_template :=
                       "sentry/emails/activity/new-user-feedback.txt";
                     rm_html_template :=
                       "sentry/emails/activity/new-user-feedback.html";
                     rm_type := "notify.user-report";
                     rm_reference := group;
                     rm_reason :=
                       default "are subscribed to this issue"
                               (descriptions !! snd item);
                     rm_unsubscribe := (fst item, group_id group);
                     rm_to := [fst item] |})
               (participants_items users participants))
  end.

Definition handle_signal (name : string) (payload : UserReport)
  (project : Project) (tbl : list GroupSubscription)
  : ReportOutcome * list ReportMail :=
  if String.eqb name "user-reports.created"
  then handle_user_report payload project tbl
  else (Returned, []).

End Handler.
End UserReports.

(** * Concrete inputs *)

Definition store_with_row : Store :=
  {| table := [{| sub_project := 10; sub_group := 100; sub_user := 7;
                  is_active := false; reason := 3 |}];
     pending := []; attempts := [] |}.

Definition project10 : Project := {| project_id := 10; organization_id := 1 |}.
Definition group100 : Group := {| group_id := 100; group_project := project10 |}.
Definition group101 : Group := {| group_id := 101; group_project := project10 |}.

Definition user_n (n : Z) : User := {| user_id := n; user_is_active := true |}.

(** Four users of the project: 1 is subscribed and has set "never", 2 is
    not subscribed and has set "always", 3 has neither a row nor a setting,
    4 is subscribed and has no setting. *)
Definition participants_table : list GroupSubscription :=
  [ {| sub_project := 10; sub_group := 100; sub_user := 1;
       is_active := true; reason := GroupSubscriptionReason.comment |};
    {| sub_project := 10; sub_group := 100; sub_user := 4;
       is_active := true; reason := GroupSubscriptionReason.bookmark |};
    {| sub_project := 10; sub_group := 101; sub_user := 3;
       is_active := true; reason := GroupSubscriptionReason.assigned |} ].

Definition participants_settings : SettingsByUser :=
  {[ 1 := {[ PROJECT := NEVER ]}; 2 := {[ DEFAULT_SCOPE := ALWAYS ]} ]}.

Definition participants_users : list User :=
  [user_n 1; user_n 2; user_n 3; user_n 4].

(** A project with one team, 50, of three members, of whom user 7 has
    been deactivated.  The ownership rules give events with data 0 to the
    team, events with data 1 to users 1 and 2, events with data 2 to user 1,
    events with data 3 to everyone, and other events to nobody.  Digests
    are on for project 11 only.  The personalized digests are those of
    users 1 and 2, in this order, each cut by [personalize]. *)
Definition project11 : Project := {| project_id := 11; organization_id := 1 |}.

Definition restrict_to_group (g : Z) (digest : Digest) : Digest :=
  map (fun rule_groups =>
         (fst rule_groups,
          List.filter (fun gr => group_id (fst gr) =? g) (snd rule_groups)))
      digest.

Definition without_group (g : Z) (digest : Digest) : Digest :=
  map (fun rule_groups =>
         (fst rule_groups,
          List.filter (fun gr => negb (group_id (fst gr) =? g))
                      (snd rule_groups)))
      digest.

(** User 1 is shown the records of group 100 and nothing else, the other
    users the records of the other groups. *)
Definition by_ownership (u : Z) (digest : Digest) : Digest :=
  if u =? 1 then restrict_to_group 100 digest else without_group 100 digest.

Definition demo_env (raises : Mail -> bool)
  (personalize : Z -> Digest -> Digest) : Env :=
  {| digests_enabled := fun p => project_id p =? 11;
     get_digest_option := fun _ key =>
       if String.eqb key "increment_delay" then Some 60 else Some 600;
     immediate_delivery := fun buffer key _ _ _ =>
       negb (existsb (fun kr => bool_decide (fst kr = key)) buffer);
     get_notification_recipients := fun _ => [user_n 1; user_n 2];
     get_owners := fun _ data =>
       if data =? 0 then OwnerList [{| owner_type := OwnerTeam; owner_id := 50 |}]
       else if data =? 1
            then OwnerList [{| owner_type := OwnerUser; owner_id := 1 |};
                            {| owner_type := OwnerUser; owner_id := 2 |}]
       else if data =? 2
            then OwnerList [{| owner_type := OwnerUser; owner_id := 1 |}]
       else if data =? 3 then Everyone
       else OwnerList [];
     auth_user := {[ 1 := true; 2 := true; 7 := false ]};
     organizationmemberteam := [(1, 50); (2, 50); (7, 50)];
     projectteam := [(10, 50); (11, 50)];
     team_member_set := fun t => if t =? 50 then [1; 2; 7] else [];
     project_member_set := fun _ => [1; 2];
     issue_alert_settings := fun _ => ∅;
     get_personalized_digests := fun _ _ digest user_ids =>
       map (fun u => (u, personalize u digest))
           (List.filter (fun u => bool_decide (u ∈ user_ids)) [1; 2]);
     send_async_raises := raises |}.

Definition quiet : Mail -> bool := fun _ => false.

Definition empty_world : World :=
  {| cache := ∅; timelines := []; delayed := []; outbox := [] |}.

Definition rule1 : Rule := {| rule_id := 1; rule_label := "rule one" |}.

Definition event_at (g : Group) (data time : Z) : Event :=
  {| event_id := time; event_group := g; event_data := data;
     event_timestamp := time |}.

Definition group102 : Group := {| group_id := 102; group_project := project10 |}.

Definition raises_for (u : Z) : Mail -> bool :=
  fun m => bool_decide (mail_to m = [u]).

Definition whole_digest : Z -> Digest -> Digest := fun _ digest => digest.

(** A digest of one rule and three groups; the event of group 100 belongs
    to user 1, the two others to users 1 and 2. *)
Definition demo_digest : Digest :=
  [ (rule1,
     [ (group100, [event_to_record (event_at group100 2 5) [rule1]]);
       (group101, [event_to_record (event_at group101 1 6) [rule1]]);
       (group102, [event_to_record (event_at group102 1 7) [rule1]]) ]) ].

Definition future_with_arguments : Future :=
  {| future_rule := rule1; future_kwargs := [("key", 1)] |}.

Definition group110 : Group := {| group_id := 110; group_project := project11 |}.

Definition row_of (u : Z) : GroupSubscription :=
  {| sub_project := 10; sub_group := 100; sub_user := u;
     is_active := true; reason := GroupSubscriptionReason.mentioned |}.

(** Another worker subscribes user [k] between the query and the insert of
    the [k]-th attempt. *)
Definition racing_store (windows : list Z) : Store :=
  {| table := []; pending := map (fun u => [row_of u]) windows;
     attempts := [] |}.

Definition quiet_store : Store :=
  {| table := participants_table; pending := []; attempts := [] |}.

(** A project that has no team. *)
Definition project12 : Project := {| project_id := 12; organization_id := 1 |}.
Definition group120 : Group := {| group_id := 120; group_project := project12 |}.

Definition always_raises : Mail -> bool := fun _ => true.

Definition demo_report_env (raises : ReportMail -> bool) : ReportEnv :=
  {| report_groups := {[ 100 := group100 ]};
     report_users := fun _ => participants_users;
     report_settings := fun _ => participants_settings;
     qualified_short_id := fun _ => "DEMO-1";
     project_subject_prefix := fun _ => Some "";
     global_subject_prefix := "[Sentry] ";
     report_send_raises := raises |}.

Definition demo_report : UserReport :=
  {| report_issue_id := 100; report_name := "Ada" |}.

(** * Properties *)

(** ** The subscription store *)

Section SubscriptionStore.
Import GroupSubscriptionManager.

Lemma with_table_id (st : Store) : with_table (fun _ => table st) st = st.
Proof. by destruct st. Qed.

Lemma same_key_rows_for (row r : GroupSubscription) :
  same_key row r
  = (sub_group r =? sub_group row) && (sub_user r =? sub_user row).
Proof. unfold same_key. by rewrite (Z.eqb_sym (sub_group row)), (Z.eqb_sym (sub_user row)). Qed.

(** A row hits the constraint exactly when the table has a row for its
    (issue, user) pair. *)
Lemma conflicts_rows_for (tbl : list GroupSubscription) (row : GroupSubscription) :
  conflicts tbl row = false <-> rows_for (sub_group row) (sub_user row) tbl = [].
Proof.
  unfold conflicts, rows_for.
  induction tbl as [|r tbl IH]; simpl; [done|].
  rewrite same_key_rows_for.
  destruct ((sub_group r =? sub_group row) && (sub_user r =? sub_user row));
    simpl; [split; discriminate | exact IH].
Qed.

Lemma rows_for_app (g u : Z) (t1 t2 : list GroupSubscription) :
  rows_for g u (t1 ++ t2) = rows_for g u t1 ++ rows_for g u t2.
Proof. unfold rows_for. apply List.filter_app. Qed.

Lemma subscribe_run (group : Group) (user : User) (reason : Z) (st : Store) :
  let row := {| sub_project := project_id (group_project group);
                sub_group := group_id group; sub_user := user_id user;
                is_active := true; reason := reason |} in
  subscribe group user reason st
  = if refused (table st) row then (Ok None, st)
    else (Ok None, with_table (fun t => t ++ [row]) st).
Proof.
  intros row. unfold subscribe, try_except, bind, atomic, create, ret.
  fold row. destruct (refused (table st) row); simpl; [|done].
  by rewrite with_table_id.
Qed.

(** A row with a reason that is not negative is refused only when its
    (issue, user) pair is taken. *)
Lemma refused_conflicts (tbl : list GroupSubscription) (row : GroupSubscription) :
  0 <= reason row -> refused tbl row = conflicts tbl row.
Proof.
  intros H. unfold refused.
  by rewrite (proj2 (Z.ltb_ge (reason row) 0) H).
Qed.

Lemma refused_false (tbl : list GroupSubscription) (row : GroupSubscription) :
  refused tbl row = false -> conflicts tbl row = false.
Proof. unfold refused. intros H. by apply orb_false_iff in H as [_ ?]. Qed.

End SubscriptionStore.

(** C6. [subscribe] is idempotent.  For reasons the column stores, and on
    a table with at most one row for the (issue, user) pair: the call always
    returns normally; when the table already has a row for the pair the
    call changes nothing; after one call the table has exactly one row for
    the pair, and a second call leaves the store as the first one left
    it. *)
Theorem subscribe_idempotent (group : Group) (user : User) (reason1 reason2 : Z)
  (st : Store) :
  storable_reason reason1 ->
  storable_reason reason2 ->
  (length (rows_for (group_id group) (user_id user) (table st)) <= 1)%nat ->
  let st1 := snd (GroupSubscriptionManager.subscribe group user reason1 st) in
  let st2 := snd (GroupSubscriptionManager.subscribe group user reason2 st1) in
  fst (GroupSubscriptionManager.subscribe group user reason1 st) = Ok None
  /\ fst (GroupSubscriptionManager.subscribe group user reason2 st1) = Ok None
  /\ (rows_for (group_id group) (user_id user) (table st) <> [] -> st1 = st)
  /\ length (rows_for (group_id group) (user_id user) (table st1)) = 1%nat
  /\ st2 = st1.
Proof.
  intros [Hr1 _] [Hr2 _] Huniq st1 st2. subst st2 st1.
  rewrite !subscribe_run.
  set (row1 := {| sub_project := _; reason := reason1 |}).
  set (row2 := {| sub_project := _; reason := reason2 |}).
  rewrite !(refused_conflicts _ row1 Hr1), !(refused_conflicts _ row2 Hr2).
  pose proof (conflicts_rows_for (table st) row1) as Hc. simpl in Hc.
  destruct (conflicts (table st) row1) eqn:E1; simpl.
  - assert (Hne : rows_for (group_id group) (user_id user) (table st) <> [])
      by (intros H; apply Hc in H; discriminate).
    assert (E2 : conflicts (table st) row2 = true) by exact E1.
    rewrite E2. simpl. repeat split; try done.
    destruct (rows_for (group_id group) (user_id user) (table st)) as [|r [|r' l]];
      simpl in *; [done | done | lia].
  - assert (Hnil : rows_for (group_id group) (user_id user) (table st) = [])
      by (by apply Hc).
    assert (E2 : conflicts (table st ++ [row1]) row2 = true).
    { destruct (conflicts _ row2) eqn:E; [done|].
      apply conflicts_rows_for in E. simpl in E.
      rewrite rows_for_app in E. unfold rows_for at 2 in E. simpl in E.
      rewrite !Z.eqb_refl in E. simpl in E.
      by apply app_eq_nil in E as [_ ?]. }
    rewrite E2. simpl. repeat split; try done.
    rewrite rows_for_app, Hnil. unfold rows_for. simpl.
    by rewrite !Z.eqb_refl.
Qed.

Lemma subscribe_idempotent_witness :
  let group := {| group_id := 100;
                  group_project := {| project_id := 10; organization_id := 1 |} |} in
  let user := {| user_id := 7; user_is_active := true |} in
  snd (GroupSubscriptionManager.subscribe group user 0 store_with_row)
  = store_with_row
  /\ length (rows_for 100 7
               (table (snd (GroupSubscriptionManager.subscribe group user 0
                              store_with_row)))) = 1%nat.
Proof.
  intros group user.
  pose proof (subscribe_idempotent group user 0 0 store_with_row) as H.
  simpl in H.
  destruct H as (_ & _ & Hnoop & Hone & _);
    [unfold storable_reason, MAX_VALUE; lia ..|].
  split; [apply Hnoop; discriminate | exact Hone].
Defined.

(** C9. [subscribe_actor] handed a user is [subscribe] for that user;
    handed a team it is [bulk_subscribe] over the user ids of the members
    of the team; handed anything else it raises [NotImplementedError], and
    the store is left as it was. *)
Theorem subscribe_actor_dispatch (group : Group) (reason : Z) :
  (forall u : User,
      GroupSubscriptionManager.subscribe_actor group
        (GroupSubscriptionManager.ActorUser u) reason
      = GroupSubscriptionManager.subscribe group u reason)
  /\ (forall t : Team,
         GroupSubscriptionManager.subscribe_actor group
           (GroupSubscriptionManager.ActorTeam t) reason
         = GroupSubscriptionManager.bulk_subscribe group
             (team_member_user_ids t) reason)
  /\ (forall (ty : string) (st : Store),
         exists msg,
           GroupSubscriptionManager.subscribe_actor group
             (GroupSubscriptionManager.ActorOther ty) reason st
           = (Raise (NotImplementedError msg), st)).
Proof.
  split; [reflexivity|]. split; [reflexivity|].
  intros ty st. eexists. reflexivity.
Qed.

Section BulkSubscribe.
Import GroupSubscriptionManager.

Lemma create_run (row : GroupSubscription) (st : Store) :
  create row st
  = if refused (table st) row then (Raise IntegrityError, st)
    else (Ok tt, with_table (fun t => t ++ [row]) st).
Proof. reflexivity. Qed.

(** [bulk_create] either inserts every row or stops at the first one the
    database refuses; it touches nothing but the table. *)
Lemma bulk_create_run (rows : list GroupSubscription) :
  forall st : Store,
    exists t',
      bulk_create rows st
      = (if batch_conflicts (table st) rows then Raise IntegrityError
         else Ok tt,
         with_table (fun _ => t') st)
      /\ (batch_conflicts (table st) rows = false -> t' = table st ++ rows).
Proof.
  induction rows as [|r rows IH]; intros st; simpl.
  - exists (table st). unfold ret. rewrite with_table_id.
    split; [done|]. intros _. by rewrite app_nil_r.
  - unfold bind. rewrite create_run.
    destruct (refused (table st) r) eqn:Ec; simpl.
    + exists (table st). by rewrite with_table_id.
    + destruct (IH (with_table (fun t => t ++ [r]) st)) as (t' & Hrun & Ht').
      simpl in Hrun, Ht'. exists t'. rewrite Hrun. split.
      * by destruct st.
      * intros Hb. rewrite (Ht' Hb). by rewrite <- app_assoc.
Qed.

Lemma atomic_bulk_create (rows : list GroupSubscription) (st : Store) :
  atomic (bulk_create rows) st
  = if batch_conflicts (table st) rows then (Raise IntegrityError, st)
    else (Ok tt, with_table (fun t => t ++ rows) st).
Proof.
  unfold atomic. destruct (bulk_create_run rows st) as (t' & Hrun & Ht').
  rewrite Hrun. destruct (batch_conflicts (table st) rows).
  - by destruct st.
  - rewrite (Ht' eq_refl). by destruct st.
Qed.

Lemma commit_others_run (st : Store) :
  commit_others st
  = (Ok tt, {| table := table (snd (commit_others st));
               pending := tail (pending st);
               attempts := attempts st |}).
Proof. unfold commit_others. destruct st as [t [|b p] a]; reflexivity. Qed.

(** The loop does in each iteration what [attempt_of] and
    [after_attempt] say. *)
Lemma bulk_subscribe_loop_step (i : Z) (range : list Z) (group : Group)
  (user_ids : gset Z) (reason : Z) (st : Store) :
  bulk_subscribe_loop (i :: range) group user_ids reason st
  = if conflict (attempt_of group user_ids reason st) then
      if i =? 0
      then (Raise IntegrityError, after_attempt group user_ids reason st)
      else bulk_subscribe_loop range group user_ids reason
             (after_attempt group user_ids reason st)
    else (Ok (Some true), after_attempt group user_ids reason st).
Proof.
  assert (Hstep :
    forall a st',
      a = attempt_of group user_ids reason st ->
      st' = after_attempt group user_ids reason st ->
      bulk_subscribe_loop (i :: range) group user_ids reason st
      = if conflict a then
          if i =? 0 then (Raise IntegrityError, st')
          else bulk_subscribe_loop range group user_ids reason st'
        else (Ok (Some true), st')); [|by apply Hstep].
  intros a st' Ha Hst'. simpl.
  unfold bind at 1. unfold get at 1.
  unfold bind at 1. rewrite commit_others_run.
  set (st1 := {| table := table (snd (commit_others st)) |}).
  unfold bind at 1, get at 1.
  unfold bind at 1, try_except.
  unfold bind at 1. rewrite atomic_bulk_create.
  subst st1. cbn [table].
  destruct (batch_conflicts _ _) eqn:Eb;
    subst a st'; unfold after_attempt, attempt_of;
    cbn [conflict at_insert inserted]; rewrite Eb;
    unfold bind, record_attempt, modify, ret, raise, with_table;
    cbn [is_IntegrityError table pending attempts];
    [destruct (i =? 0)|]; reflexivity.
Qed.

End BulkSubscribe.

Section BulkSubscribeProtocol.
Import GroupSubscriptionManager.

Lemma elem_of_existing_subscriptions (group : Group) (user_ids : gset Z)
  (tbl : list GroupSubscription) (u : Z) :
  u ∈ existing_subscriptions group user_ids tbl
  <-> u ∈ user_ids
      /\ exists row, In row tbl /\ sub_user row = u
                     /\ sub_group row = group_id group
                     /\ sub_project row = project_id (group_project group).
Proof.
  unfold existing_subscriptions.
  rewrite elem_of_list_to_set, list_elem_of_In, in_map_iff.
  split.
  - intros (row & Hu & Hin). apply filter_In in Hin as [Hin Hb].
    apply andb_true_iff in Hb as [Hb Hp]. apply andb_true_iff in Hb as [Hb Hg].
    apply bool_decide_eq_true in Hb. apply Z.eqb_eq in Hg, Hp.
    subst u. eauto 10.
  - intros (Hu & row & Hin & <- & Hg & Hp). exists row. split; [done|].
    apply filter_In. split; [done|].
    rewrite !andb_true_iff, bool_decide_eq_true, !Z.eqb_eq. done.
Qed.

Lemma elem_of_new_subscriptions (group : Group) (user_ids ex : gset Z)
  (reason : Z) (row : GroupSubscription) :
  In row (new_subscriptions group user_ids ex reason)
  <-> row = {| sub_project := project_id (group_project group);
               sub_group := group_id group; sub_user := sub_user row;
               is_active := true; reason := reason |}
      /\ sub_user row ∈ user_ids /\ sub_user row ∉ ex.
Proof.
  unfold new_subscriptions. rewrite in_map_iff. split.
  - intros (u & <- & Hin). apply filter_In in Hin as [Hin Hb].
    apply list_elem_of_In, elem_of_elements in Hin.
    apply negb_true_iff, bool_decide_eq_false in Hb. done.
  - intros (Hrow & Hu & Hex). exists (sub_user row). split; [done|].
    apply filter_In. split.
    + by apply list_elem_of_In, elem_of_elements.
    + by apply negb_true_iff, bool_decide_eq_false.
Qed.


End BulkSubscribeProtocol.


(** ** The participant resolver *)

(** Two runs of [bulk_subscribe] for users 1 to 5.  When another worker
    subscribes user 1 after the first query, the first insert fails, the
    second query sees user 1 and the second insert goes through.  When
    another worker gets in before each of the five inserts, the fifth
    failure is raised. *)
Example bulk_subscribe_retries_after_a_race :
  let run :=
    GroupSubscriptionManager.bulk_subscribe group100 [1; 2; 3; 4; 5]
      GroupSubscriptionReason.team_mentioned (racing_store [1]) in
  fst run = Ok (Some true)
  /\ map conflict (attempts (snd run)) = [true; false]
  /\ map (fun a => elements (existing a)) (attempts (snd run)) = [[]; [1]]
  /\ length (table (snd run)) = 5%nat.
Proof. vm_compute. repeat split; reflexivity. Qed.

Example bulk_subscribe_gives_up_after_five :
  let run :=
    GroupSubscriptionManager.bulk_subscribe group100 [1; 2; 3; 4; 5]
      GroupSubscriptionReason.team_mentioned (racing_store [1; 2; 3; 4; 5]) in
  fst run = Raise IntegrityError
  /\ map conflict (attempts (snd run)) = [true; true; true; true; true]
  /\ map sub_user (table (snd run)) = [1; 2; 3; 4; 5].
Proof. vm_compute. repeat split; reflexivity. Qed.

Lemma participants_fold (users : list User)
  (subs : gmap Z GroupSubscription) (settings : SettingsByUser) (u : Z) :
  forall out : gmap Z Z,
    foldl
      (fun out user =>
         if GroupSubscriptionManager.should_be_participating user subs settings
         then <[user_id user :=
                  match subs !! user_id user with
                  | Some s => reason s
                  | None => GroupSubscriptionReason.implicit
                  end]> out
         else out) out users !! u
    = if existsb (fun user => user_id user =? u) users
         && GroupSubscriptionManager.should_be_participating
              {| user_id := u; user_is_active := true |} subs settings
      then Some match subs !! u with
                | Some s => reason s
                | None => GroupSubscriptionReason.implicit
                end
      else out !! u.
Proof.
  induction users as [|x l IH]; intros out; simpl; [done|].
  rewrite IH. destruct (user_id x =? u) eqn:E; simpl.
  - apply Z.eqb_eq in E.
    change (GroupSubscriptionManager.should_be_participating x subs settings)
      with (GroupSubscriptionManager.should_be_participating
              {| user_id := user_id x; user_is_active := true |} subs settings).
    rewrite E.
    destruct (GroupSubscriptionManager.should_be_participating _ _ _) eqn:Es.
    + rewrite andb_true_r. destruct (existsb _ l); [done|].
      by rewrite lookup_insert_eq.
    + by rewrite andb_false_r.
  - apply Z.eqb_neq in E.
    destruct (existsb _ l && _); [done|].
    destruct (GroupSubscriptionManager.should_be_participating x _ _); [|done].
    by rewrite lookup_insert_ne.
Qed.

Section Participants.
Import GroupSubscriptionManager.

Variables (users : list User) (settings : SettingsByUser) (group : Group)
          (tbl : list GroupSubscription).

Let user_ids := map user_id users.
Let subscriptions :=
  List.filter (fun r => (sub_group r =? group_id group)
                        && bool_decide (sub_user r ∈ user_ids)) tbl.
Let subscriptions_by_user_id : gmap Z GroupSubscription :=
  foldl (fun m s => <[sub_user s := s]> m) ∅ subscriptions.

(** The dictionary of subscriptions holds, for a user of the project, the
    last row of the table for the issue and that user. *)
Lemma subscriptions_by_user_id_lookup (u : Z) :
  u ∈ user_ids ->
  subscriptions_by_user_id !! u = last (rows_for (group_id group) u tbl).
Proof.
  intros Hu. subst subscriptions_by_user_id subscriptions.
  assert (H : forall m0 : gmap Z GroupSubscription,
             foldl (fun m s => <[sub_user s := s]> m) m0
               (List.filter (fun r => (sub_group r =? group_id group)
                                      && bool_decide (sub_user r ∈ user_ids))
                            tbl) !! u
             = match last (rows_for (group_id group) u tbl) with
               | Some s => Some s
               | None => m0 !! u
               end).
  { induction tbl as [|r t IH]; intros m0; simpl; [done|].
    destruct (sub_group r =? group_id group) eqn:Eg; simpl; [|apply IH].
    destruct (decide (sub_user r = u)) as [Heq|Hne].
    - destruct (bool_decide_reflect (sub_user r ∈ user_ids)) as [_|Hn];
        [|exfalso; apply Hn; rewrite Heq; exact Hu].
      rewrite (proj2 (Z.eqb_eq _ _) Heq). simpl.
      rewrite IH, last_cons, <- Heq, lookup_insert_eq.
      by destruct (last (rows_for (group_id group) (sub_user r) t)).
    - rewrite (proj2 (Z.eqb_neq _ _) Hne).
      destruct (bool_decide (sub_user r ∈ user_ids)); simpl; [|apply IH].
      rewrite IH. by rewrite lookup_insert_ne. }
  rewrite H, lookup_empty.
  by destruct (last (rows_for (group_id group) u tbl)).
Qed.

Lemma get_participants_lookup (u : Z) :
  get_participants users settings group tbl !! u
  = if existsb (fun user => user_id user =? u) users
       && should_be_participating {| user_id := u; user_is_active := true |}
            subscriptions_by_user_id settings
    then Some match subscriptions_by_user_id !! u with
              | Some s => reason s
              | None => GroupSubscriptionReason.implicit
              end
    else None.
Proof.
  unfold get_participants. fold user_ids. fold subscriptions.
  fold subscriptions_by_user_id.
  generalize subscriptions_by_user_id. intros subs.
  rewrite participants_fold, lookup_empty. by destruct (_ && _).
Qed.

End Participants.

(** C1. On a table that respects the unique constraint, a user of the
    project is in the result of [get_participants] exactly when the table
    has an active row for the issue and the user and the setting of the
    user is not "never", or the table has no row for them and the setting
    is "always".  A user in the result is mapped to the reason of the row
    when there is one and to the implicit reason otherwise.  So a user
    without a row whose setting is the default is left out, and so is a
    user with a row whose setting is "never". *)
Theorem get_participants_policy (users : list User) (settings : SettingsByUser)
  (group : Group) (tbl : list GroupSubscription) :
  unique_together tbl ->
  forall user : User, In user users ->
    let rows := rows_for (group_id group) (user_id user) tbl in
    let value := GroupSubscriptionManager.resolved_setting settings user in
    let result :=
      GroupSubscriptionManager.get_participants users settings group tbl in
    (is_Some (result !! user_id user)
     <-> ((exists row, In row rows /\ is_active row = true) /\ value <> NEVER)
         \/ (rows = [] /\ value = ALWAYS))
    /\ (forall row, In row rows -> is_Some (result !! user_id user) ->
          result !! user_id user = Some (reason row))
    /\ (rows = [] -> is_Some (result !! user_id user) ->
          result !! user_id user = Some GroupSubscriptionReason.implicit)
    /\ (rows = [] -> value = DEFAULT -> result !! user_id user = None)
    /\ (rows <> [] -> value = NEVER -> result !! user_id user = None).
Proof.
  intros Huniq user Hin rows value result.
  assert (Hex : existsb (fun x => user_id x =? user_id user) users = true).
  { apply existsb_exists. exists user. split; [done|apply Z.eqb_refl]. }
  assert (Hu : user_id user ∈ map user_id users).
  { apply list_elem_of_In, in_map_iff. eauto. }
  assert (Hres : result !! user_id user
                 = match last rows with
                   | Some s =>
                       if is_active s && negb (bool_decide (value = NEVER))
                       then Some (reason s) else None
                   | None =>
                       if bool_decide (value = ALWAYS)
                       then Some GroupSubscriptionReason.implicit else None
                   end).
  { subst result. rewrite get_participants_lookup, Hex. simpl.
    unfold GroupSubscriptionManager.should_be_participating. simpl.
    rewrite (subscriptions_by_user_id_lookup users group tbl _ Hu).
    fold rows.
    change (GroupSubscriptionManager.resolved_setting settings
              {| user_id := user_id user; user_is_active := true |})
      with value.
    by destruct (last rows). }
  specialize (Huniq (group_id group) (user_id user)). fold rows in Huniq.
  rewrite Hres. clear Hres.
  destruct rows as [|row [|row' rest]]; simpl in *; [| |lia].
  - (* no row *)
    split_and!.
    + case_bool_decide as Hv; split.
      * intros _. by right.
      * intros; by eexists.
      * by intros [? ?].
      * intros [[(? & [] & _) _]|[_ ?]]. done.
    + intros row [].
    + intros _. by case_bool_decide; [|intros [? ?]].
    + intros _ Hv. case_bool_decide as Hv'; [congruence|done].
    + done.
  - (* one row *)
    split_and!.
    + destruct (is_active row) eqn:Ea; simpl.
      * case_bool_decide as Hv; simpl; split.
        -- by intros [? ?].
        -- intros [[_ ?]|[? _]]; done.
        -- intros _. left. split; [|done]. exists row. auto.
        -- intros _. by eexists.
      * split; [by intros [? ?]|].
        intros [[(r & [<-|[]] & Hr) _]|[? _]]; congruence.
    + intros r [<-|[]] [x Hx]. by destruct (_ && _).
    + done.
    + done.
    + intros _ Hv. rewrite bool_decide_true by done. by rewrite andb_false_r.
Qed.

(** A table whose (issue, user) pairs are pairwise distinct respects the
    unique constraint. *)
Lemma unique_together_NoDup (tbl : list GroupSubscription) :
  NoDup (map (fun r => (sub_group r, sub_user r)) tbl) -> unique_together tbl.
Proof.
  intros Hnd g u. induction tbl as [|r t IH]; simpl; [lia|].
  apply NoDup_cons in Hnd as [Hnotin Hnd]. specialize (IH Hnd).
  destruct ((sub_group r =? g) && (sub_user r =? u)) eqn:E; simpl; [|done].
  apply andb_true_iff in E as [Eg Eu]. apply Z.eqb_eq in Eg, Eu. subst g u.
  destruct (rows_for (sub_group r) (sub_user r) t) as [|r' l] eqn:Er;
    simpl; [lia|].
  exfalso. apply Hnotin.
  assert (Hin : In r' (rows_for (sub_group r) (sub_user r) t))
    by (rewrite Er; by left).
  apply filter_In in Hin as [Hin Hk].
  apply andb_true_iff in Hk as [Eg Eu]. apply Z.eqb_eq in Eg, Eu.
  apply list_elem_of_In, in_map_iff. exists r'. by rewrite Eg, Eu.
Qed.

Lemma participants_table_unique : unique_together participants_table.
Proof.
  apply unique_together_NoDup.
  apply (bool_decide_unpack (NoDup _)). by vm_compute.
Qed.

Lemma get_participants_policy_witness :
  is_Some (GroupSubscriptionManager.get_participants participants_users
             participants_settings group100 participants_table !! 2)
  /\ GroupSubscriptionManager.get_participants participants_users
       participants_settings group100 participants_table !! 1 = None.
Proof.
  pose proof (get_participants_policy participants_users participants_settings
                group100 participants_table participants_table_unique) as H.
  split.
  - apply (H (user_n 2)); [simpl; tauto|]. right. split; reflexivity.
  - apply (H (user_n 1)); [simpl; tauto| discriminate | reflexivity].
Defined.

(** The table of the specification, run: user 1 (subscribed, "never") and
    user 3 (no row, no setting) are left out; user 2 (no row, "always")
    takes part for the implicit reason and user 4 (subscribed, no setting)
    for the reason of the row. *)
Example get_participants_table_driven :
  map_to_list (GroupSubscriptionManager.get_participants participants_users
                 participants_settings group100 participants_table)
  ≡ₚ [(2, GroupSubscriptionReason.implicit);
      (4, GroupSubscriptionReason.bookmark)].
Proof. vm_compute. apply perm_swap || reflexivity. Qed.

(** ** Target resolution *)

Section Targets.
Import MailAdapter.
Variable env : Env.

Lemma team_in_project_iff (project : Project) (t : Z) :
  team_in_project env project t = true
  <-> In (project_id project, t) (projectteam env).
Proof.
  unfold team_in_project. rewrite existsb_exists. split.
  - intros ([p t'] & Hin & Hb). simpl in Hb.
    apply andb_true_iff in Hb as [Hp Ht]. apply Z.eqb_eq in Hp, Ht.
    by subst.
  - intros Hin. exists (project_id project, t). split; [done|].
    simpl. by rewrite !Z.eqb_refl.
Qed.

Lemma member_of_project_iff (project : Project) (u : Z) :
  member_of_project env project u = true
  <-> u ∈ dom (auth_user env)
      /\ exists t, In (u, t) (organizationmemberteam env)
                   /\ In (project_id project, t) (projectteam env).
Proof.
  unfold member_of_project.
  rewrite andb_true_iff, bool_decide_eq_true, existsb_exists.
  split; intros [Hdom Hex]; (split; [done|]).
  - destruct Hex as ([u' t] & Hin & Hb). simpl in Hb.
    apply andb_true_iff in Hb as [Hu Ht]. apply Z.eqb_eq in Hu. subst u'.
    exists t. split; [done|]. by apply team_in_project_iff.
  - destruct Hex as (t & Hin & Hpt). exists (u, t). split; [done|].
    simpl. rewrite Z.eqb_refl. simpl. by apply team_in_project_iff.
Qed.

Lemma project_teams_exist_of_team (project : Project) (t : Z) :
  In (project_id project, t) (projectteam env) ->
  project_teams_exist env project = true.
Proof.
  intros Hin. unfold project_teams_exist. apply existsb_exists.
  exists (project_id project, t). split; [done|]. apply Z.eqb_refl.
Qed.

End Targets.

(** C8. A MEMBER target resolves to the set holding the id of the user the
    identifier names when that user exists and is a member of a team of the
    project, and to the empty set otherwise.  The issue-alert settings play
    no part: the user is returned also when
    [disabled_users_from_project] lists them, and [get_send_to] hands the
    same set on. *)
Theorem get_send_to_member_spec (env : Env) (project : Project) (u : Z) :
  let found :=
    u ∈ dom (auth_user env)
    /\ exists t, In (u, t) (organizationmemberteam env)
                 /\ In (project_id project, t) (projectteam env) in
  (found -> MailAdapter.get_send_to_member env project (Some u) = PySet {[u]})
  /\ (~ found -> MailAdapter.get_send_to_member env project (Some u) = PySet ∅)
  /\ (found -> u ∈ MailAdapter.disabled_users_from_project env project ->
      u ∈ to_set (MailAdapter.get_send_to_member env project (Some u)))
  /\ (found -> forall (event : option Event) (w : World),
        MailAdapter.get_send_to env (Some project) MEMBER (Some u) event w
        = (Ok {[u]}, w)).
Proof.
  intros found.
  pose proof (member_of_project_iff env project u) as Hiff. fold found in Hiff.
  unfold MailAdapter.get_send_to_member.
  destruct (MailAdapter.member_of_project env project u) eqn:E.
  - assert (Hf : found) by (by apply Hiff). split_and!; try done.
    + intros _ _. simpl. set_solver.
    + intros _ event w. destruct Hf as (_ & t & _ & Hpt).
      unfold MailAdapter.get_send_to.
      rewrite (project_teams_exist_of_team env project t Hpt). simpl.
      unfold bind, ret, MailAdapter.get_send_to_member. by rewrite E.
  - assert (Hnf : ~ found) by (intros Hf; apply Hiff in Hf; discriminate).
    split_and!; try done.
Qed.

(** C10. [should_notify] answers [True] for a MEMBER target whatever the
    project has for sendable users; for the other targets it answers with
    the sendable users of the project, which count as true exactly when
    there is one. *)
Theorem should_notify_spec (env : Env) (group : Group) :
  MailAdapter.should_notify env MEMBER group = inl true
  /\ MailAdapter.truthy (MailAdapter.should_notify env MEMBER group) = true
  /\ forall target_type : ActionTargetType,
       target_type <> MEMBER ->
       MailAdapter.should_notify env target_type group
       = inr (MailAdapter.get_sendable_user_objects env (group_project group))
       /\ (MailAdapter.truthy (MailAdapter.should_notify env target_type group)
           = true
           <-> MailAdapter.get_sendable_user_objects env (group_project group)
               <> []).
Proof.
  split; [reflexivity|]. split; [reflexivity|].
  intros target_type Hne. unfold MailAdapter.should_notify.
  rewrite bool_decide_false by done. split; [done|]. simpl.
  by destruct (MailAdapter.get_sendable_user_objects env (group_project group)).
Qed.

Section Owners.
Import MailAdapter.
Variable env : Env.

Lemma get_send_to_all_in_project_run (project : Project) (w : World) :
  get_send_to_all_in_project env project w
  = match cache w !! project_id project with
    | Some send_to_list => (Ok send_to_list, w)
    | None =>
        (Ok (map user_id (get_sendable_user_objects env project)),
         set_cache (project_id project)
           (map user_id (get_sendable_user_objects env project)) w)
    end.
Proof.
  unfold get_send_to_all_in_project, bind, get. simpl.
  by destruct (cache w !! project_id project).
Qed.

Lemma elem_of_owners_of_type (ty : OwnerType) (owners : list Owner) (x : Z) :
  x ∈ owners_of_type ty owners
  <-> exists o, In o owners /\ owner_type o = ty /\ owner_id o = x.
Proof.
  unfold owners_of_type.
  rewrite elem_of_list_to_set, list_elem_of_In, in_map_iff.
  split.
  - intros (o & Hid & Hin). apply filter_In in Hin as [Hin Hb].
    apply bool_decide_eq_true in Hb. eauto.
  - intros (o & Hin & Hty & Hid). exists o. split; [done|].
    apply filter_In. split; [done|]. by apply bool_decide_eq_true.
Qed.

(** The loop over the owners sorts their ids by kind. *)
Lemma owners_fold (owners : list Owner) :
  forall a b : gset Z,
    foldl (fun acc owner =>
             match owner_type owner with
             | OwnerUser => (fst acc ∪ {[owner_id owner]}, snd acc)
             | OwnerTeam => (fst acc, snd acc ∪ {[owner_id owner]})
             end) (a, b) owners
    = (a ∪ owners_of_type OwnerUser owners,
       b ∪ owners_of_type OwnerTeam owners).
Proof.
  induction owners as [|o l IH]; intros a b; simpl.
  - f_equal; unfold owners_of_type; simpl; set_solver.
  - destruct (owner_type o) eqn:Ety; rewrite IH; simpl;
      unfold owners_of_type; simpl; rewrite Ety; simpl;
      f_equal; set_solver.
Qed.

Lemma elem_of_active_users_in_teams (teams : gset Z) (u : Z) :
  u ∈ active_users_in_teams env teams
  <-> auth_user env !! u = Some true
      /\ exists t, t ∈ teams /\ In (u, t) (organizationmemberteam env).
Proof.
  unfold active_users_in_teams.
  rewrite elem_of_list_to_set, list_elem_of_In, in_map_iff.
  split.
  - intros ([u' t] & Hu & Hin). simpl in Hu. subst u'.
    apply filter_In in Hin as [Hin Hb]. simpl in Hb.
    apply andb_true_iff in Hb as [Hact Ht].
    apply bool_decide_eq_true in Ht. unfold user_is_active_in_db in Hact.
    split; [|eauto].
    destruct (auth_user env !! u) as [[|]|]; done.
  - intros (Hact & t & Ht & Hin). exists (u, t). split; [done|].
    apply filter_In. split; [done|]. simpl.
    unfold user_is_active_in_db. rewrite Hact. simpl.
    by apply bool_decide_eq_true.
Qed.

Lemma elem_of_team_member_ids (teams : gset Z) (u : Z) :
  u ∈ team_member_ids env teams
  <-> exists t, t ∈ teams /\ In (u, t) (organizationmemberteam env).
Proof.
  unfold team_member_ids.
  rewrite elem_of_list_to_set, list_elem_of_In, in_map_iff.
  split.
  - intros ([u' t] & Hu & Hin). simpl in Hu. subst u'.
    apply filter_In in Hin as [Hin Hb]. simpl in Hb.
    apply bool_decide_eq_true in Hb. eauto.
  - intros (t & Ht & Hin). exists (u, t). split; [done|].
    apply filter_In. split; [done|]. by apply bool_decide_eq_true.
Qed.

(** The users [disabled_users_from_project] returns: the members of the
    project whose issue-alert setting at the project scope is "never". *)
Lemma elem_of_disabled_users_from_project (project : Project) (u : Z) :
  u ∈ disabled_users_from_project env project
  <-> In u (project_member_set env project)
      /\ u ∈ dom (auth_user env)
      /\ exists by_scope,
           issue_alert_settings env project !! u = Some by_scope
           /\ by_scope !! PROJECT = Some NEVER.
Proof.
  unfold disabled_users_from_project.
  set (step := fun (output : gset Z) (user : Z) => _).
  set (P := fun x : Z =>
              exists by_scope,
                issue_alert_settings env project !! x = Some by_scope
                /\ by_scope !! PROJECT = Some NEVER).
  assert (Hstep : forall out x v,
             v ∈ step out x <-> v ∈ out \/ (v = x /\ P x)).
  { intros out x v. subst step. simpl.
    destruct (issue_alert_settings env project !! x) as [by_scope|] eqn:Es.
    - case_bool_decide as Hne.
      + case_bool_decide as Hnever.
        * rewrite elem_of_union, elem_of_singleton. split; [|tauto].
          intros [?| ->]; [tauto|]. right. split; [done|]. exists by_scope. done.
        * split; [tauto|]. intros [?|[-> (s & Hs & Hn)]]; [done|].
          simplify_eq.
      + split; [tauto|]. intros [?|[-> (s & Hs & Hn)]]; [done|].
        simplify_eq.
    - split; [tauto|]. intros [?|[-> (s & Hs & Hn)]]; [done|]. simplify_eq. }
  assert (Hfold : forall l out v,
             v ∈ foldl step out l <-> v ∈ out \/ (In v l /\ P v)).
  { induction l as [|x l IH]; intros out v; simpl; [tauto|].
    rewrite IH, Hstep. split.
    - intros [[?|[-> ?]]|[? ?]]; tauto.
    - intros [?|[[<-|?] ?]]; tauto. }
  rewrite Hfold, filter_In, bool_decide_eq_true.
  split; [intros [?|[[? ?] ?]]; [set_solver|tauto] | tauto].
Qed.

End Owners.

(** C4, as stated, fails: with the team 50 as the only owner, the stated
    recipients hold the deactivated member 7, and [get_send_to_owners] does
    not return that user. *)
Lemma get_send_to_owners_leaves_out_inactive_member :
  MailAdapter.get_send_to_owners (demo_env quiet by_ownership)
    (event_at group100 0 1) project10 empty_world
  = (Ok (PySet {[1; 2]}), empty_world)
  /\ get_owners (demo_env quiet by_ownership) 10 0
     = OwnerList [{| owner_type := OwnerTeam; owner_id := 50 |}]
  /\ stated_owner_recipients (demo_env quiet by_ownership) project10
       [{| owner_type := OwnerTeam; owner_id := 50 |}] = {[1; 2; 7]}
  /\ ({[1; 2]} : gset Z) <> {[1; 2; 7]}.
Proof.
  split_and!; try (vm_compute; reflexivity).
  intros Heq. assert (H7 : 7 ∈ ({[1; 2]} : gset Z)) by (rewrite Heq; set_solver).
  set_solver.
Qed.

(** C4, amended.  Where the project has a team, [get_send_to] for an
    ISSUE_OWNERS target and an event is the set of what
    [get_send_to_owners] returns.  When the ownership rules answer "everyone",
    [get_send_to_owners] returns what [get_send_to_all_in_project] returns:
    the list kept in the cache for the project, or, when there is none, the
    ids of the sendable users, which it then caches.  When they answer with
    an empty list of owners it returns the empty set.  Otherwise it returns
    the ids of the user owners and of the active users who are members of a
    team owner, less the users [disabled_users_from_project] lists: the
    members of the project whose issue-alert setting at the project scope
    is "never". *)
Theorem get_send_to_owners_spec (env : Env) (event : Event) (project : Project)
  (w : World) :
  let answer := get_owners env (project_id project) (event_data event) in
  (answer = Everyone ->
     MailAdapter.get_send_to_owners env event project w
     = (Ok (PyList
              (default (map user_id
                          (MailAdapter.get_sendable_user_objects env project))
                       (cache w !! project_id project))),
        snd (MailAdapter.get_send_to_all_in_project env project w))
     /\ (cache w !! project_id project = None ->
         cache (snd (MailAdapter.get_send_to_all_in_project env project w))
           !! project_id project
         = Some (map user_id
                   (MailAdapter.get_sendable_user_objects env project))))
  /\ (answer = OwnerList [] ->
        MailAdapter.get_send_to_owners env event project w = (Ok (PySet ∅), w))
  /\ (forall owners, owners <> [] -> answer = OwnerList owners ->
        exists s : gset Z,
          MailAdapter.get_send_to_owners env event project w = (Ok (PySet s), w)
          /\ forall u,
               u ∈ s
               <-> ((exists o, In o owners /\ owner_type o = OwnerUser
                               /\ owner_id o = u)
                    \/ (auth_user env !! u = Some true
                        /\ exists o, In o owners /\ owner_type o = OwnerTeam
                                     /\ In (u, owner_id o)
                                          (organizationmemberteam env)))
                   /\ u ∉ MailAdapter.disabled_users_from_project env project)
  /\ (forall u,
        u ∈ MailAdapter.disabled_users_from_project env project
        <-> In u (project_member_set env project)
            /\ u ∈ dom (auth_user env)
            /\ exists by_scope,
                 issue_alert_settings env project !! u = Some by_scope
                 /\ by_scope !! PROJECT = Some NEVER)
  /\ (MailAdapter.project_teams_exist env project = true ->
      forall target_identifier,
        MailAdapter.get_send_to env (Some project) ISSUE_OWNERS
          target_identifier (Some event) w
        = (match fst (MailAdapter.get_send_to_owners env event project w) with
           | Ok send_to => Ok (to_set send_to)
           | Raise e => Raise e
           end,
           snd (MailAdapter.get_send_to_owners env event project w))).
Proof.
  intros answer.
  assert (Hwrap :
    MailAdapter.project_teams_exist env project = true ->
    forall target_identifier,
      MailAdapter.get_send_to env (Some project) ISSUE_OWNERS
        target_identifier (Some event) w
      = (match fst (MailAdapter.get_send_to_owners env event project w) with
         | Ok send_to => Ok (to_set send_to)
         | Raise e => Raise e
         end,
         snd (MailAdapter.get_send_to_owners env event project w))).
  { intros Hteams target_identifier. unfold MailAdapter.get_send_to.
    rewrite Hteams. simpl. unfold bind at 1.
    destruct (MailAdapter.get_send_to_owners env event project w) as [[c|e] w'];
      reflexivity. }
  revert Hwrap.
  unfold MailAdapter.get_send_to_owners. fold answer. intros Hwrap.
  split_and!; [| | | |exact Hwrap].
  - intros ->. unfold bind at 1.
    rewrite get_send_to_all_in_project_run.
    destruct (cache w !! project_id project) as [l|] eqn:Ec; simpl.
    + split; [done|]. intros; discriminate.
    + split; [done|]. intros _. by rewrite lookup_insert_eq.
  - by intros ->.
  - intros owners Hne ->. destruct owners as [|o l]; [done|].
    eexists. split.
    + rewrite owners_fold. cbv zeta. reflexivity.
    + intros u. rewrite elem_of_difference.
      apply and_iff_compat_r.
      rewrite !union_empty_l_L.
      set (os := o :: l).
      case_bool_decide as Hteams.
      * rewrite elem_of_union, elem_of_owners_of_type,
          elem_of_active_users_in_teams.
        apply or_iff_compat_l. apply and_iff_compat_l.
        split.
        -- intros (t & Ht & Hin). apply elem_of_owners_of_type in Ht.
           destruct Ht as (o' & Ho' & Hty & <-). eauto.
        -- intros (o' & Ho' & Hty & Hin). exists (owner_id o'). split; [|done].
           apply elem_of_owners_of_type. eauto.
      * rewrite elem_of_owners_of_type. split; [tauto|].
        intros [?|(_ & o' & Ho' & Hty & _)]; [done|].
        exfalso.
        assert (Hin : owner_id o' ∈ owners_of_type OwnerTeam os)
          by (apply elem_of_owners_of_type; eauto).
        rewrite Hteams in Hin. set_solver.
  - apply elem_of_disabled_users_from_project.
Qed.

(** ** The dispatcher *)

Section Dispatcher.
Import MailAdapter.
Variable env : Env.

#[local] Arguments get_digest_metadata : simpl never.

Lemma send_async_run (m : Mail) (w : World) :
  send_async env m w
  = (if send_async_raises env m then Raise TransportError else Ok tt,
     with_outbox (outbox w ++ [m]) w).
Proof.
  unfold send_async, bind, modify, raise, ret. simpl.
  by destruct (send_async_raises env m).
Qed.

(** Handing a run of messages to the transport stops at the first that
    makes it raise. *)
Lemma for_each_send (A : Type) (mail : A -> Mail) (l : list A) :
  forall w : World,
    for_each l (fun x => send_async env (mail x)) w
    = (if existsb (send_async_raises env) (map mail l)
       then Raise TransportError else Ok tt,
       with_outbox (outbox w ++ handed_over env (map mail l)) w).
Proof.
  induction l as [|x l IH]; intros w; simpl.
  - unfold ret, with_outbox. rewrite app_nil_r. by destruct w.
  - unfold bind. rewrite send_async_run.
    destruct (send_async_raises env (mail x)); simpl; [done|].
    rewrite IH. simpl. by rewrite <- app_assoc.
Qed.

Lemma handed_over_all (mails : list Mail) :
  existsb (send_async_raises env) mails = false ->
  handed_over env mails = mails.
Proof.
  induction mails as [|m l IH]; simpl; [done|].
  intros H. apply orb_false_iff in H as [-> H]. by rewrite IH.
Qed.

Lemma handed_over_first_failure (pre post : list Mail) (m : Mail) :
  existsb (send_async_raises env) pre = false ->
  send_async_raises env m = true ->
  handed_over env (pre ++ m :: post) = pre ++ [m]
  /\ existsb (send_async_raises env) (pre ++ m :: post) = true.
Proof.
  induction pre as [|x l IH]; simpl; intros Hpre Hm.
  - by rewrite Hm.
  - apply orb_false_iff in Hpre as [-> Hpre].
    destruct (IH Hpre Hm) as [-> ->]. done.
Qed.

(** Target resolution returns, and touches nothing but the cache. *)
Lemma get_send_to_total (project : option Project)
  (target_type : ActionTargetType) (target_identifier : option Z)
  (event : option Event) (w : World) :
  exists (s : gset Z) (w1 : World),
    get_send_to env project target_type target_identifier event w = (Ok s, w1)
    /\ timelines w1 = timelines w /\ delayed w1 = delayed w
    /\ outbox w1 = outbox w.
Proof.
  unfold get_send_to. destruct project as [project|]; [|by eexists _, _].
  destruct (project_teams_exist env project); simpl; [|by eexists _, _].
  unfold bind at 1.
  destruct target_type; [destruct event as [event|]| |].
  - unfold get_send_to_owners.
    destruct (get_owners env _ _) as [|[|o l]].
    + unfold bind. rewrite get_send_to_all_in_project_run.
      destruct (cache w !! project_id project); by eexists _, _.
    + by eexists _, _.
    + rewrite owners_fold. by eexists _, _.
  - unfold bind. rewrite get_send_to_all_in_project_run.
    destruct (cache w !! project_id project); by eexists _, _.
  - by eexists _, _.
  - by eexists _, _.
Qed.

(** [notify] resolves the recipients and hands one message for each to
    the transport, in the order of the set, until one makes it raise. *)
Lemma notify_run (notification : Notification)
  (target_type : ActionTargetType) (target_identifier : option Z) (w : World) :
  exists (s : gset Z) (w1 : World),
    get_send_to env
      (Some (group_project (event_group (n_event notification))))
      target_type target_identifier (Some (n_event notification)) w
    = (Ok s, w1)
    /\ timelines w1 = timelines w /\ delayed w1 = delayed w
    /\ outbox w1 = outbox w
    /\ notify env notification target_type target_identifier w
       = (if existsb (send_async_raises env)
               (map (alert_mail notification) (elements s))
          then Raise TransportError else Ok tt,
          with_outbox
            (outbox w
               ++ handed_over env (map (alert_mail notification) (elements s)))
            w1).
Proof.
  destruct (get_send_to_total
              (Some (group_project (event_group (n_event notification))))
              target_type target_identifier (Some (n_event notification)) w)
    as (s & w1 & Hget & Ht & Hd & Ho).
  exists s, w1. split_and!; try done.
  unfold notify. unfold bind at 1. rewrite Hget.
  rewrite <- Ho.
  apply (for_each_send Z (alert_mail notification) (elements s) w1).
Qed.

(** A flush in which every personalized digest counts two groups or more
    hands one digest message for each to the transport, in order, until
    one makes it raise. *)
Lemma notify_digest_loop_aggregate (project : Project)
  (target_type : ActionTargetType) (target_identifier : option Z)
  (personalized : list (Z * Digest)) :
  Forall (fun ud => is_Some (digest_mail project (fst ud) (snd ud)))
         personalized ->
  forall w : World,
    notify_digest_loop env personalized project target_type
      target_identifier w
    = (if existsb (send_async_raises env) (digest_mails project personalized)
       then Raise TransportError else Ok tt,
       with_outbox
         (outbox w ++ handed_over env (digest_mails project personalized)) w).
Proof.
  induction 1 as [|[u d] l Hd Hl IH]; intros w.
  - simpl. unfold ret, with_outbox. rewrite app_nil_r. by destruct w.
  - unfold digest_mails. cbn in *. unfold digest_mail in *.
    destruct (get_digest_metadata d) as [[start stop] counts].
    destruct counts as [|[g n] [|c counts]]; try by destruct Hd.
    cbn. unfold bind. unfold _send_mail, _build_message.
    rewrite send_async_run.
    destruct (send_async_raises env _); simpl; [done|].
    rewrite IH. simpl. by rewrite <- app_assoc.
Qed.

End Dispatcher.

(** C3, at an input where it fails.  The flush resolves users 1 and 2; the
    digest of user 1 counts one group and the digest of user 2 counts two.
    [notify_digest] takes the single-notification path for user 1 and
    returns: the one message handed to the transport is the alert for
    user 1, and user 2 gets no message at all. *)
Example notify_digest_returns_after_single_group :
  let env := demo_env quiet by_ownership in
  let personalized :=
    get_personalized_digests env ISSUE_OWNERS 10 demo_digest {[1; 2]} in
  let run :=
    MailAdapter.notify_digest env project10 demo_digest ISSUE_OWNERS None
      empty_world in
  fst (MailAdapter.get_send_to env (Some project10) ISSUE_OWNERS None None
         empty_world) = Ok {[1; 2]}
  /\ map (fun ud => (fst ud, length (snd (get_digest_metadata (snd ud)))))
         personalized = [(1, 1%nat); (2, 2%nat)]
  /\ fst run = Ok tt
  /\ map (fun m => (mail_type m, mail_to m)) (outbox (snd run))
     = [("notify.error", [1])].
Proof. vm_compute. repeat split; reflexivity. Qed.

(** C7, as stated, fails: the flush resolves users 1, 2 and 7 of the team
    and personalizes for users 1 and 2, in this order, each with a digest
    of three groups.  The transport raises for the message to user 1 and
    for no other; the exception leaves [notify_digest], and no message for
    user 2 is ever handed over. *)
Lemma notify_digest_failure_stops_the_flush :
  let env := demo_env (raises_for 1) whole_digest in
  let run :=
    MailAdapter.notify_digest env project10 demo_digest TEAM (Some 50)
      empty_world in
  fst (MailAdapter.get_send_to env (Some project10) TEAM (Some 50) None
         empty_world) = Ok {[1; 2; 7]}
  /\ map fst (get_personalized_digests env TEAM 10 demo_digest {[1; 2; 7]})
     = [1; 2]
  /\ (forall m, send_async_raises env m = true <-> mail_to m = [1])
  /\ fst run = Raise TransportError
  /\ map mail_to (outbox (snd run)) = [[1]].
Proof.
  split_and!; try (vm_compute; reflexivity).
  intros m. simpl. unfold raises_for. apply bool_decide_eq_true.
Qed.

(** C7, amended.  [notify] hands the messages of the resolved recipients
    to the transport one after the other, and a flush whose personalized
    digests all count two groups or more does the same with its digest
    messages.  When no message makes the transport raise, every one is
    handed over and the call returns; when one does, the messages before it
    and that one are handed over, those after it are not, and the call
    raises what the transport raised. *)
Theorem delivery_stops_at_first_failure (env : Env) :
  (forall (notification : Notification) (target_type : ActionTargetType)
          (target_identifier : option Z) (w : World),
      exists (s : gset Z) (w1 : World),
        MailAdapter.get_send_to env
          (Some (group_project (event_group (n_event notification))))
          target_type target_identifier (Some (n_event notification)) w
        = (Ok s, w1)
        /\ let mails := map (alert_mail notification) (elements s) in
           let run :=
             MailAdapter.notify env notification target_type
               target_identifier w in
           outbox (snd run) = outbox w ++ handed_over env mails
           /\ (existsb (send_async_raises env) mails = false ->
               fst run = Ok tt /\ handed_over env mails = mails)
           /\ (forall pre m post,
                 mails = pre ++ m :: post ->
                 existsb (send_async_raises env) pre = false ->
                 send_async_raises env m = true ->
                 fst run = Raise TransportError
                 /\ handed_over env mails = pre ++ [m]))
  /\ (forall (project : Project) (digest : Digest)
             (target_type : ActionTargetType) (target_identifier : option Z)
             (w : World),
         exists (s : gset Z) (w1 : World),
           MailAdapter.get_send_to env (Some project) target_type
             target_identifier None w = (Ok s, w1)
           /\ let personalized :=
                get_personalized_digests env target_type (project_id project)
                  digest s in
              let mails := digest_mails project personalized in
              let run :=
                MailAdapter.notify_digest env project digest target_type
                  target_identifier w in
              Forall (fun ud => is_Some (digest_mail project (fst ud) (snd ud)))
                     personalized ->
              outbox (snd run) = outbox w ++ handed_over env mails
              /\ (existsb (send_async_raises env) mails = false ->
                  fst run = Ok tt /\ handed_over env mails = mails)
              /\ (forall pre m post,
                    mails = pre ++ m :: post ->
                    existsb (send_async_raises env) pre = false ->
                    send_async_raises env m = true ->
                    fst run = Raise TransportError
                    /\ handed_over env mails = pre ++ [m])).
Proof.
  split.
  - intros notification target_type target_identifier w.
    destruct (notify_run env notification target_type target_identifier w)
      as (s & w1 & Hget & _ & _ & _ & Hrun).
    exists s, w1. split; [done|]. intros mails run. subst run mails.
    rewrite Hrun. cbn [fst snd outbox with_outbox]. split_and!.
    + done.
    + intros Hnone. rewrite Hnone. split; [done|]. by apply handed_over_all.
    + intros pre m post Hmails Hpre Hm.
      destruct (handed_over_first_failure env pre post m Hpre Hm) as [Hh He].
      rewrite Hmails, He, Hh. done.
  - intros project digest target_type target_identifier w.
    destruct (get_send_to_total env (Some project) target_type
                target_identifier None w) as (s & w1 & Hget & _ & _ & Ho).
    exists s, w1. split; [done|]. intros personalized mails run Hall.
    subst run mails.
    assert (Hrun :
      MailAdapter.notify_digest env project digest target_type
        target_identifier w
      = (if existsb (send_async_raises env) (digest_mails project personalized)
         then Raise TransportError else Ok tt,
         with_outbox
           (outbox w1 ++ handed_over env (digest_mails project personalized))
           w1)).
    { unfold MailAdapter.notify_digest, bind. rewrite Hget.
      by apply notify_digest_loop_aggregate. }
    rewrite Hrun. cbn [fst snd outbox with_outbox]. rewrite Ho. split_and!.
    + done.
    + intros Hnone. rewrite Hnone. split; [done|]. by apply handed_over_all.
    + intros pre m post Hmails Hpre Hm.
      destruct (handed_over_first_failure env pre post m Hpre Hm) as [Hh He].
      rewrite Hmails, He, Hh. done.
Qed.

Lemma collect_rules_ok (futures : list Future) :
  Forall (fun future => future_kwargs future = []) futures ->
  forall rules,
    MailAdapter.collect_rules futures rules
    = Ok (rules ++ map future_rule futures).
Proof.
  induction 1 as [|f l Hf Hl IH]; intros rules; simpl.
  - by rewrite app_nil_r.
  - rewrite Hf, IH. by rewrite <- app_assoc.
Qed.

(** C5, as stated, fails: a matched rule that passes arguments makes
    [rule_notify] raise before anything else happens.  With digests on,
    nothing is appended to the buffer and no flush is queued; with digests
    off, nothing is handed to the transport, though the target resolves to
    users 1 and 2. *)
Lemma rule_notify_refuses_rule_arguments :
  let env := demo_env quiet by_ownership in
  digests_enabled env project11 = true
  /\ (exists msg,
        MailAdapter.rule_notify env (event_at group110 1 5)
          [future_with_arguments] ISSUE_OWNERS None empty_world
        = (Raise (NotImplementedError msg), empty_world))
  /\ digests_enabled env project10 = false
  /\ fst (MailAdapter.get_send_to env (Some project10) ISSUE_OWNERS None
            (Some (event_at group100 1 5)) empty_world) = Ok {[1; 2]}
  /\ (exists msg,
        MailAdapter.rule_notify env (event_at group100 1 5)
          [future_with_arguments] ISSUE_OWNERS None empty_world
        = (Raise (NotImplementedError msg), empty_world)).
Proof.
  split_and!; try (vm_compute; reflexivity); eexists; vm_compute; reflexivity.
Qed.

(** C5, amended.  When none of the matched rules passes arguments:
    with digests on, [rule_notify] appends the record of the event and its
    rules to the buffer under the key of (project, target type, target
    identifier), and queues a flush of that key exactly when the append
    reports immediate delivery; nothing is handed to the transport.  With
    digests off it does what [notify] does for the event and the rules: it
    resolves the recipients with the event at hand and, when the transport
    raises for none of their messages, hands over one message for each
    recipient; the buffer and the queue of flushes stay as they were. *)
Theorem rule_notify_spec (env : Env) (event : Event) (futures : list Future)
  (target_type : ActionTargetType) (target_identifier : option Z) (w : World) :
  Forall (fun future => future_kwargs future = []) futures ->
  let project := group_project (event_group event) in
  let rules := map future_rule futures in
  let key := unsplit_key project target_type target_identifier in
  let record := event_to_record event rules in
  let run :=
    MailAdapter.rule_notify env event futures target_type target_identifier w in
  (digests_enabled env project = true ->
     let immediate :=
       immediate_delivery env (timelines w) key record
         (get_digest_option env project "increment_delay")
         (get_digest_option env project "maximum_delay") in
     run = (Ok (if immediate then "dispatched" else "digested"),
            {| cache := cache w;
               timelines := timelines w ++ [(key, record)];
               delayed := delayed w ++ (if immediate then [key] else []);
               outbox := outbox w |}))
  /\ (digests_enabled env project = false ->
        let notification := {| n_event := event; n_rules := rules |} in
        snd run
        = snd (MailAdapter.notify env notification target_type
                 target_identifier w)
        /\ exists (s : gset Z) (w1 : World),
             MailAdapter.get_send_to env (Some project) target_type
               target_identifier (Some event) w = (Ok s, w1)
             /\ timelines (snd run) = timelines w
             /\ delayed (snd run) = delayed w
             /\ ((forall u, u ∈ s ->
                    send_async_raises env (alert_mail notification u) = false)
                 -> fst run = Ok "dispatched"
                    /\ outbox (snd run)
                       = outbox w ++ map (alert_mail notification) (elements s)
                    /\ map mail_to (map (alert_mail notification) (elements s))
                       = map (fun u => [u]) (elements s)
                    /\ NoDup (elements s))).
Proof.
  intros Hargs project rules key record run.
  assert (Hrules : MailAdapter.collect_rules futures [] = Ok rules)
    by (by rewrite (collect_rules_ok futures Hargs)).
  subst run. unfold MailAdapter.rule_notify. rewrite Hrules. fold project.
  split.
  - intros Hen. rewrite Hen. fold key. fold record.
    unfold bind, MailAdapter.digests_add, get, modify, ret. simpl.
    destruct (immediate_delivery env _ _ _ _ _);
      unfold push_delayed, push_timeline; simpl; by rewrite ?app_nil_r.
  - intros Hen. rewrite Hen.
    set (notification := {| n_event := event; n_rules := rules |}).
    destruct (notify_run env notification target_type target_identifier w)
      as (s & w1 & Hget & Ht & Hd & Ho & Hrun).
    fold notification. unfold bind. rewrite Hrun.
    split.
    + by destruct (existsb _ _).
    + exists s, w1. split; [exact Hget|].
      split; [by destruct (existsb _ _)|].
      split; [by destruct (existsb _ _)|].
      intros Hquiet.
      assert (Hnone : existsb (send_async_raises env)
                        (map (alert_mail notification) (elements s)) = false).
      { apply not_true_iff_false. intros Hex.
        apply existsb_exists in Hex as (m & Hin & Hm).
        apply in_map_iff in Hin as (u & <- & Hu).
        apply list_elem_of_In, elem_of_elements in Hu.
        rewrite (Hquiet u Hu) in Hm. done. }
      rewrite Hnone, (handed_over_all env _ Hnone). simpl.
      split_and!; [done|done| |apply NoDup_elements].
      rewrite map_map. done.
Qed.

Lemma rule_notify_spec_witness :
  MailAdapter.rule_notify (demo_env quiet by_ownership) (event_at group110 1 5)
    [{| future_rule := rule1; future_kwargs := [] |}] ISSUE_OWNERS None
    empty_world
  = (Ok "dispatched",
     {| cache := ∅;
        timelines :=
          [(unsplit_key project11 ISSUE_OWNERS None,
            event_to_record (event_at group110 1 5) [rule1])];
        delayed := [unsplit_key project11 ISSUE_OWNERS None];
        outbox := [] |}).
Proof.
  apply (rule_notify_spec (demo_env quiet by_ownership) (event_at group110 1 5)
           [{| future_rule := rule1; future_kwargs := [] |}] ISSUE_OWNERS None
           empty_world).
  - repeat constructor.
  - reflexivity.
Defined.

Lemma delivery_stops_at_first_failure_witness :
  let env := demo_env (raises_for 1) whole_digest in
  exists (s : gset Z) (w1 : World),
    MailAdapter.get_send_to env (Some project10) TEAM (Some 50) None
      empty_world = (Ok s, w1)
    /\ outbox (snd (MailAdapter.notify_digest env project10 demo_digest TEAM
                      (Some 50) empty_world))
       = outbox empty_world
           ++ handed_over env
                (digest_mails project10
                   (get_personalized_digests env TEAM 10 demo_digest s)).
Proof.
  intros env.
  destruct (proj2 (delivery_stops_at_first_failure env) project10 demo_digest
              TEAM (Some 50) empty_world) as (s & w1 & Hget & H).
  exists s, w1. split; [exact Hget|]. apply H.
  assert (Hs : s = {[1; 2; 7]}).
  { assert (Hrun : MailAdapter.get_send_to env (Some project10) TEAM (Some 50)
                     None empty_world = (Ok {[1; 2; 7]}, empty_world))
      by (vm_compute; reflexivity).
    rewrite Hrun in Hget. by injection Hget as <- _. }
  rewrite Hs. repeat constructor; vm_compute; eexists; reflexivity.
Defined.

(** ** The event processing store *)

Lemma unprocessed_key_differs (key : string) :
  BaseEventProcessingStore.__get_unprocessed_key key <> key.
Proof.
  unfold BaseEventProcessingStore.__get_unprocessed_key.
  induction key as [|a key IH]; cbn; [discriminate|].
  intros H. injection H as H. by apply IH.
Qed.

Section ProcessingStore.
Import BaseEventProcessingStore.
Context {Event : Type}.
Variable cache_key_for_event : Event -> string.

(** X1. What [store] puts away, [get] finds again: under the key of the
    event with the same flag, and under the key [store] returned with the
    flag off.  The entry carries the time to live of the store. *)
Theorem store_get_round_trip (self : @Self Event) (event : Event)
  (unprocessed : bool) :
  let stored := store cache_key_for_event self event unprocessed in
  get (snd stored) (cache_key_for_event event) unprocessed = Some event
  /\ get (snd stored) (fst stored) false = Some event
  /\ inner (snd stored) !! fst stored = Some (event, timeout self)
  /\ timeout (snd stored) = timeout self.
Proof.
  unfold store, get. simpl.
  destruct unprocessed; simpl; rewrite lookup_insert_eq; done.
Qed.

(** X2. The processed and the unprocessed copy of an event live under
    different keys: storing one leaves what [get] finds for the other as
    it was. *)
Theorem store_keeps_other_copy (self : @Self Event) (event : Event)
  (unprocessed : bool) :
  get (snd (store cache_key_for_event self event unprocessed))
    (cache_key_for_event event) (negb unprocessed)
  = get self (cache_key_for_event event) (negb unprocessed).
Proof.
  unfold store, get. simpl.
  pose proof (unprocessed_key_differs (cache_key_for_event event)) as Hne.
  destruct unprocessed; simpl; by rewrite lookup_insert_ne.
Qed.

(** X3. [delete] drops both copies of the event and nothing else: after
    it [get] finds the event under neither flag, and every key other than
    the key of the event and its unprocessed key reads as before. *)
Theorem delete_drops_both_copies (self : @Self Event) (event : Event) :
  let after := delete cache_key_for_event self event in
  (forall unprocessed,
      get after (cache_key_for_event event) unprocessed = None)
  /\ (forall key,
        key <> cache_key_for_event event ->
        key <> __get_unprocessed_key (cache_key_for_event event) ->
        inner after !! key = inner self !! key)
  /\ timeout after = timeout self.
Proof.
  unfold delete, delete_by_key, get. simpl.
  pose proof (unprocessed_key_differs (cache_key_for_event event)) as Hne.
  split_and!; [|intros key H1 H2|done].
  - intros [|]; simpl.
    + by rewrite lookup_delete_eq.
    + rewrite lookup_delete_ne by done. by rewrite lookup_delete_eq.
  - by rewrite !lookup_delete_ne.
Qed.

(** X4. The key [store] returns for an unprocessed event is already the
    unprocessed key.  Handing it back to [get] with the flag on reads the
    key with the suffix twice, a slot [store] did not write: [get] finds
    there what was there before, and nothing in a storage that was empty. *)
Theorem get_unprocessed_of_returned_key (self : @Self Event) (event : Event) :
  let stored := store cache_key_for_event self event true in
  fst stored = __get_unprocessed_key (cache_key_for_event event)
  /\ get (snd stored) (fst stored) true = get self (fst stored) true
  /\ (inner self = ∅ -> get (snd stored) (fst stored) true = None).
Proof.
  unfold store, get. simpl.
  pose proof (unprocessed_key_differs
                (__get_unprocessed_key (cache_key_for_event event))) as Hne.
  split_and!; [done| |intros Hempty].
  - by rewrite lookup_insert_ne.
  - rewrite lookup_insert_ne by done. by rewrite Hempty, lookup_empty.
Qed.

End ProcessingStore.

(** ** The subscription store: what it keeps *)

Section StoreInvariants.
Import GroupSubscriptionManager.

Lemma unique_together_snoc (tbl : list GroupSubscription)
  (row : GroupSubscription) :
  unique_together tbl -> conflicts tbl row = false ->
  unique_together (tbl ++ [row]).
Proof.
  intros Hu Hc g u. rewrite rows_for_app.
  unfold rows_for at 2. simpl.
  destruct ((sub_group row =? g) && (sub_user row =? u)) eqn:E; simpl.
  - apply andb_true_iff in E as [Eg Eu]. apply Z.eqb_eq in Eg, Eu. subst g u.
    apply conflicts_rows_for in Hc. rewrite Hc. simpl. lia.
  - rewrite app_nil_r. apply Hu.
Qed.

Lemma commit_one_unique (tbl : list GroupSubscription) (row : GroupSubscription) :
  unique_together tbl -> unique_together (commit_one tbl row).
Proof.
  intros Hu. unfold commit_one. destruct (refused tbl row) eqn:E; [done|].
  by apply unique_together_snoc, refused_false.
Qed.

Lemma commit_one_prefix (tbl : list GroupSubscription) (row : GroupSubscription) :
  tbl `prefix_of` commit_one tbl row.
Proof.
  unfold commit_one. destruct (refused tbl row); [done|].
  by apply prefix_app_r.
Qed.

Lemma commit_others_table (P : list GroupSubscription -> Prop) (st : Store) :
  (forall tbl row, P tbl -> P (commit_one tbl row)) ->
  P (table st) -> P (table (snd (commit_others st))).
Proof.
  intros Hstep. unfold commit_others.
  destruct (pending st) as [|batch rest]; simpl; [done|].
  generalize (table st). induction batch as [|r batch IH]; simpl; [done|].
  intros tbl Htbl. apply IH. by apply Hstep.
Qed.

Lemma batch_unique (rows : list GroupSubscription) :
  forall tbl, unique_together tbl -> batch_conflicts tbl rows = false ->
              unique_together (tbl ++ rows).
Proof.
  induction rows as [|r rows IH]; intros tbl Hu Hb; simpl in *.
  - by rewrite app_nil_r.
  - apply orb_false_iff in Hb as [Hc Hb].
    rewrite cons_middle, app_assoc.
    apply IH; [by apply unique_together_snoc, refused_false|done].
Qed.

(** What holds of a store before the retry loop and is kept by every
    attempt holds after the loop. *)
Lemma bulk_subscribe_loop_invariant (P : Store -> Prop) (group : Group)
  (user_ids : gset Z) (reason : Z) :
  (forall st, P st -> P (after_attempt group user_ids reason st)) ->
  forall range st,
    P st -> P (snd (bulk_subscribe_loop range group user_ids reason st)).
Proof.
  intros Hstep. induction range as [|i range IH]; intros st Hst; [done|].
  rewrite bulk_subscribe_loop_step.
  destruct (conflict _); [destruct (i =? 0)|]; simpl; auto.
Qed.

Lemma after_attempt_unique (group : Group) (user_ids : gset Z) (reason : Z)
  (st : Store) :
  unique_together (table st) ->
  unique_together (table (after_attempt group user_ids reason st)).
Proof.
  intros Hu. unfold after_attempt. cbn [table].
  assert (Hins : unique_together
                   (at_insert (attempt_of group user_ids reason st))).
  { unfold attempt_of. cbn [at_insert].
    apply (commit_others_table unique_together); [|done].
    intros tbl row. apply commit_one_unique. }
  destruct (conflict _) eqn:Ec; [done|].
  apply batch_unique; [done|exact Ec].
Qed.

Lemma after_attempt_prefix (group : Group) (user_ids : gset Z) (reason : Z)
  (st : Store) :
  table st `prefix_of` table (after_attempt group user_ids reason st).
Proof.
  unfold after_attempt. cbn [table].
  assert (Hins : table st
                 `prefix_of` at_insert (attempt_of group user_ids reason st)).
  { unfold attempt_of. cbn [at_insert].
    apply (commit_others_table (fun t => table st `prefix_of` t)); [|done].
    intros tbl row Htbl. etrans; [exact Htbl|apply commit_one_prefix]. }
  destruct (conflict _); [done|]. by apply prefix_app_r.
Qed.

End StoreInvariants.

(** X5. The unique constraint is kept: from a table with at most one row
    for every (issue, user) pair, [subscribe], [bulk_subscribe] and
    [subscribe_actor] lead to such a table again, whatever other workers
    commit in between and whether the call returns or raises. *)
Theorem store_keeps_unique_together (group : Group) (reason : Z) (st : Store) :
  unique_together (table st) ->
  (forall user,
      unique_together
        (table (snd (GroupSubscriptionManager.subscribe group user reason st))))
  /\ (forall user_ids,
        unique_together
          (table (snd (GroupSubscriptionManager.bulk_subscribe group user_ids
                         reason st))))
  /\ (forall actor,
        unique_together
          (table (snd (GroupSubscriptionManager.subscribe_actor group actor
                         reason st)))).
Proof.
  intros Hu.
  assert (Hsub : forall user,
             unique_together
               (table (snd (GroupSubscriptionManager.subscribe group user
                              reason st)))).
  { intros user. rewrite subscribe_run.
    destruct (refused (table st) _) eqn:Ec; simpl; [done|].
    by apply unique_together_snoc, refused_false. }
  assert (Hbulk : forall user_ids,
             unique_together
               (table (snd (GroupSubscriptionManager.bulk_subscribe group
                              user_ids reason st)))).
  { intros user_ids. unfold GroupSubscriptionManager.bulk_subscribe.
    apply (bulk_subscribe_loop_invariant
             (fun s => unique_together (table s))); [|done].
    intros s. apply after_attempt_unique. }
  split_and!; [done|done|].
  intros [u|t|ty]; simpl; [apply Hsub|apply Hbulk|done].
Qed.

Lemma store_keeps_unique_together_witness :
  unique_together
    (table (snd (GroupSubscriptionManager.bulk_subscribe group100
                   [1; 2; 3; 4; 5] GroupSubscriptionReason.team_mentioned
                   (racing_store [1; 2])))).
Proof.
  apply (store_keeps_unique_together group100
           GroupSubscriptionReason.team_mentioned (racing_store [1; 2])).
  intros g u. simpl. lia.
Defined.

(** X6. The store only ever appends: the table a call of [subscribe] or
    [bulk_subscribe] finds is a prefix of the table it leaves, so no row is
    changed or removed, and a row that was made inactive stays inactive. *)
Theorem store_is_append_only (group : Group) (reason : Z) (st : Store) :
  (forall user,
      table st
      `prefix_of`
      table (snd (GroupSubscriptionManager.subscribe group user reason st)))
  /\ (forall user_ids,
        table st
        `prefix_of`
        table (snd (GroupSubscriptionManager.bulk_subscribe group user_ids
                      reason st)))
  /\ (forall user_ids row,
        In row (table st) ->
        In row (table (snd (GroupSubscriptionManager.bulk_subscribe group
                              user_ids reason st)))).
Proof.
  assert (Hbulk : forall user_ids,
             table st
             `prefix_of`
             table (snd (GroupSubscriptionManager.bulk_subscribe group user_ids
                           reason st))).
  { intros user_ids. unfold GroupSubscriptionManager.bulk_subscribe.
    apply (bulk_subscribe_loop_invariant
             (fun s => table st `prefix_of` table s)); [|done].
    intros s Hs. etrans; [exact Hs|apply after_attempt_prefix]. }
  split_and!; [|done|].
  - intros user. rewrite subscribe_run.
    destruct (refused (table st) _); simpl; [done|]. by apply prefix_app_r.
  - intros user_ids row Hin. destruct (Hbulk user_ids) as [k ->].
    apply in_or_app. by left.
Qed.

Section StoredReasons.
Import GroupSubscriptionManager.

Lemma stored_reasons_snoc (tbl : list GroupSubscription)
  (row : GroupSubscription) :
  stored_reasons tbl -> refused tbl row = false -> stored_reasons (tbl ++ [row]).
Proof.
  intros Ht Hr r Hin. apply in_app_or in Hin as [Hin|[<-|[]]]; [by apply Ht|].
  unfold refused in Hr. apply orb_false_iff in Hr as [Hr _].
  by apply Z.ltb_ge.
Qed.

Lemma commit_one_stored_reasons (tbl : list GroupSubscription)
  (row : GroupSubscription) :
  stored_reasons tbl -> stored_reasons (commit_one tbl row).
Proof.
  intros Ht. unfold commit_one. destruct (refused tbl row) eqn:E; [done|].
  by apply stored_reasons_snoc.
Qed.

Lemma batch_stored_reasons (rows : list GroupSubscription) :
  forall tbl, stored_reasons tbl -> batch_conflicts tbl rows = false ->
              stored_reasons (tbl ++ rows).
Proof.
  induction rows as [|r rows IH]; intros tbl Ht Hb; simpl in *.
  - by rewrite app_nil_r.
  - apply orb_false_iff in Hb as [Hc Hb].
    rewrite cons_middle, app_assoc.
    apply IH; [by apply stored_reasons_snoc|done].
Qed.

Lemma after_attempt_stored_reasons (group : Group) (user_ids : gset Z)
  (reason : Z) (st : Store) :
  stored_reasons (table st) ->
  stored_reasons (table (after_attempt group user_ids reason st)).
Proof.
  intros Ht. unfold after_attempt. cbn [table].
  assert (Hins : stored_reasons
                   (at_insert (attempt_of group user_ids reason st))).
  { unfold attempt_of. cbn [at_insert].
    apply (commit_others_table stored_reasons); [|done].
    intros tbl row. apply commit_one_stored_reasons. }
  destruct (conflict _) eqn:Ec; [done|].
  apply batch_stored_reasons; [done|exact Ec].
Qed.

End StoredReasons.

(** X20. The synthetic reasons never reach the table: from a table
    without a negative reason, [subscribe] and [bulk_subscribe] lead to
    such a table again, whatever the reason they are given and whatever
    other workers try to commit in between.  With a negative reason
    [subscribe] returns normally and leaves the store as it found it. *)
Theorem synthetic_reasons_are_not_stored (group : Group) (reason : Z)
  (st : Store) :
  stored_reasons (table st) ->
  (forall user,
      stored_reasons
        (table (snd (GroupSubscriptionManager.subscribe group user reason st))))
  /\ (forall user_ids,
        stored_reasons
          (table (snd (GroupSubscriptionManager.bulk_subscribe group user_ids
                         reason st))))
  /\ (reason < 0 ->
      forall user,
        GroupSubscriptionManager.subscribe group user reason st = (Ok None, st)).
Proof.
  intros Ht. split_and!.
  - intros user. rewrite subscribe_run.
    destruct (refused (table st) _) eqn:E; simpl; [done|].
    by apply stored_reasons_snoc.
  - intros user_ids. unfold GroupSubscriptionManager.bulk_subscribe.
    apply (bulk_subscribe_loop_invariant
             (fun s => stored_reasons (table s))); [|done].
    intros s. apply after_attempt_stored_reasons.
  - intros Hneg user. rewrite subscribe_run. unfold refused. simpl.
    by rewrite (proj2 (Z.ltb_lt reason 0) Hneg).
Qed.

Lemma synthetic_reasons_are_not_stored_witness :
  GroupSubscriptionManager.subscribe group100 (user_n 3)
    GroupSubscriptionReason.implicit quiet_store
  = (Ok None, quiet_store).
Proof.
  assert (Ht : stored_reasons (table quiet_store)).
  { intros row Hin. simpl in Hin.
    destruct Hin as [<-|[<-|[<-|[]]]]; by vm_compute. }
  destruct (synthetic_reasons_are_not_stored group100
              GroupSubscriptionReason.implicit quiet_store Ht)
    as (_ & _ & Hneg).
  apply Hneg. unfold GroupSubscriptionReason.implicit. lia.
Defined.

Section NothingToInsert.
Import GroupSubscriptionManager.

Lemma new_subscriptions_nil (group : Group) (user_ids ex : gset Z) (reason : Z) :
  user_ids ⊆ ex -> new_subscriptions group user_ids ex reason = [].
Proof.
  intros Hsub.
  destruct (new_subscriptions group user_ids ex reason) as [|row l] eqn:E;
    [done|].
  assert (Hin : In row (new_subscriptions group user_ids ex reason))
    by (rewrite E; by left).
  apply elem_of_new_subscriptions in Hin as (_ & Hu & Hnew).
  exfalso. by apply Hnew, Hsub.
Qed.

End NothingToInsert.

(** ** The participant resolver: what it reads *)

Lemma filter_group_then_users (gid : Z) (user_ids : list Z)
  (tbl : list GroupSubscription) :
  List.filter (fun r => (sub_group r =? gid)
                        && bool_decide (sub_user r ∈ user_ids)) tbl
  = List.filter (fun r => bool_decide (sub_user r ∈ user_ids))
                (List.filter (fun r => sub_group r =? gid) tbl).
Proof.
  induction tbl as [|r tbl IH]; simpl; [done|].
  destruct (sub_group r =? gid); simpl; [|done].
  destruct (bool_decide (sub_user r ∈ user_ids)); by rewrite IH.
Qed.

(** X8. [get_participants] answers about the users it is given and from
    the rows of the issue alone: a user outside [users] is never in the
    result, whatever rows the table has for them, and two tables with the
    same rows for the issue give the same result. *)
Theorem get_participants_reads_issue_rows (users : list User)
  (settings : SettingsByUser) (group : Group) (tbl : list GroupSubscription) :
  (forall u, is_Some (GroupSubscriptionManager.get_participants users settings
                        group tbl !! u) ->
             In u (map user_id users))
  /\ (forall tbl',
        List.filter (fun r => sub_group r =? group_id group) tbl'
        = List.filter (fun r => sub_group r =? group_id group) tbl ->
        GroupSubscriptionManager.get_participants users settings group tbl'
        = GroupSubscriptionManager.get_participants users settings group tbl).
Proof.
  split.
  - intros u [r Hr]. rewrite get_participants_lookup in Hr.
    destruct (existsb (fun user => user_id user =? u) users) eqn:Ex;
      [|discriminate].
    apply existsb_exists in Ex as (user & Hin & Heq). apply Z.eqb_eq in Heq.
    apply in_map_iff. eauto.
  - intros tbl' Hsame. unfold GroupSubscriptionManager.get_participants.
    by rewrite !filter_group_then_users, Hsame.
Qed.

(** X9. A subscription written by [subscribe] is the one the resolver
    reads: for a reason the column stores, when the table had no row for
    the issue and the user, and the user is among the users of the project,
    the user can only be in the result of [get_participants] with the
    reason [subscribe] was given. *)
Theorem subscribe_then_participating (users : list User)
  (settings : SettingsByUser) (group : Group) (user : User) (reason : Z)
  (st : Store) :
  storable_reason reason ->
  rows_for (group_id group) (user_id user) (table st) = [] ->
  In user users ->
  forall r,
    GroupSubscriptionManager.get_participants users settings group
      (table (snd (GroupSubscriptionManager.subscribe group user reason st)))
      !! user_id user = Some r ->
    r = reason.
Proof.
  intros [Hreason _] Hnone Hin r.
  set (row := {| sub_project := project_id (group_project group);
                 sub_group := group_id group; sub_user := user_id user;
                 is_active := true; reason := reason |}).
  assert (Htbl : table (snd (GroupSubscriptionManager.subscribe group user
                               reason st)) = table st ++ [row]).
  { rewrite subscribe_run. fold row.
    assert (Hc : refused (table st) row = false).
    { rewrite refused_conflicts by exact Hreason.
      by apply conflicts_rows_for. }
    by rewrite Hc. }
  rewrite Htbl, get_participants_lookup.
  assert (Hu : user_id user ∈ map user_id users).
  { apply list_elem_of_In, in_map_iff. eauto. }
  rewrite (subscriptions_by_user_id_lookup users group _ _ Hu).
  rewrite rows_for_app, Hnone. unfold rows_for. simpl.
  rewrite !Z.eqb_refl. simpl.
  destruct (_ && _); intros [= <-]. done.
Qed.

Lemma subscribe_then_participating_witness :
  GroupSubscriptionManager.get_participants participants_users
    participants_settings group100
    (table (snd (GroupSubscriptionManager.subscribe group100 (user_n 3)
                   GroupSubscriptionReason.comment quiet_store))) !! 3
  = Some GroupSubscriptionReason.comment.
Proof.
  assert (H : is_Some
                (GroupSubscriptionManager.get_participants participants_users
                   participants_settings group100
                   (table (snd (GroupSubscriptionManager.subscribe group100
                                  (user_n 3) GroupSubscriptionReason.comment
                                  quiet_store))) !! 3))
    by (vm_compute; eexists; reflexivity).
  destruct H as [r Hr]. rewrite Hr. f_equal.
  apply (subscribe_then_participating participants_users participants_settings
           group100 (user_n 3) GroupSubscriptionReason.comment quiet_store);
    [unfold storable_reason, MAX_VALUE, GroupSubscriptionReason.comment; lia
    | reflexivity | simpl; tauto | exact Hr].
Defined.

(** ** Target resolution: teams, the cache, and what is left alone *)

Lemma project_teams_exist_false (env : Env) (project : Project) (t : Z) :
  MailAdapter.project_teams_exist env project = false ->
  ~ In (project_id project, t) (projectteam env).
Proof.
  intros Hf Hin.
  rewrite (project_teams_exist_of_team env project t Hin) in Hf. discriminate.
Qed.

(** X10. A TEAM target resolves to the members of the team the identifier
    names, when that team is a team of the project, less the users who
    disabled issue alerts for the project; without an identifier, or with
    one that names no team of the project, it resolves to nobody.  The
    world is left as it was. *)
Theorem get_send_to_team_spec (env : Env) (project : Project)
  (target_identifier : option Z) (event : option Event) (w : World) :
  exists s : gset Z,
    MailAdapter.get_send_to env (Some project) TEAM target_identifier event w
    = (Ok s, w)
    /\ forall u,
         u ∈ s
         <-> exists t,
               target_identifier = Some t
               /\ In (project_id project, t) (projectteam env)
               /\ In u (team_member_set env t)
               /\ u ∉ MailAdapter.disabled_users_from_project env project.
Proof.
  unfold MailAdapter.get_send_to.
  destruct (MailAdapter.project_teams_exist env project) eqn:Ex; simpl.
  - unfold bind, ret, MailAdapter.get_send_to_team.
    destruct target_identifier as [t|]; simpl.
    + destruct (MailAdapter.team_in_project env project t) eqn:Et; simpl.
      * eexists. split; [done|]. intros u.
        rewrite elem_of_difference, elem_of_list_to_set, list_elem_of_In.
        apply team_in_project_iff in Et. split.
        -- intros [? ?]. exists t. done.
        -- intros (t' & [= <-] & _ & ? & ?). done.
      * exists ∅. split; [done|]. intros u. split; [set_solver|].
        intros (t' & [= <-] & Hin & _).
        apply team_in_project_iff in Hin. congruence.
    + exists ∅. split; [done|]. intros u. split; [set_solver|].
      intros (t' & ? & _). discriminate.
  - exists ∅. split; [done|]. intros u. split; [set_solver|].
    intros (t & _ & Hin & _).
    exfalso. exact (project_teams_exist_false env project t Ex Hin).
Qed.

(** X11. [get_send_to_all_in_project] answers from the cache once it has
    answered: after a call the cache holds the list the call returned, and
    a later call returns that list and changes nothing, whatever the
    sendable users have become by then.  On a miss the list is that of
    [get_sendable_user_ids]. *)
Theorem get_send_to_all_in_project_cached (env env' : Env) (project : Project)
  (w : World) :
  let first := MailAdapter.get_send_to_all_in_project env project w in
  exists l : list Z,
    fst first = Ok l
    /\ cache (snd first) !! project_id project = Some l
    /\ MailAdapter.get_send_to_all_in_project env' project (snd first)
       = (Ok l, snd first)
    /\ (cache w !! project_id project = None ->
        l = MailAdapter.get_sendable_user_ids env project)
    /\ (forall l0, cache w !! project_id project = Some l0 ->
                   l = l0 /\ snd first = w).
Proof.
  intros first. subst first. rewrite get_send_to_all_in_project_run.
  destruct (cache w !! project_id project) as [l0|] eqn:Ec.
  - exists l0. simpl. rewrite get_send_to_all_in_project_run, Ec.
    split_and!; try done. by intros l1 [= <-].
  - eexists. simpl. rewrite get_send_to_all_in_project_run. simpl.
    rewrite lookup_insert_eq. split_and!; done.
Qed.

Lemma get_send_to_world (env : Env) (project : option Project)
  (target_type : ActionTargetType) (target_identifier : option Z)
  (event : option Event) (w : World) :
  snd (MailAdapter.get_send_to env project target_type target_identifier
         event w) = w
  \/ exists p l,
       project = Some p /\ target_type = ISSUE_OWNERS
       /\ cache w !! project_id p = None
       /\ snd (MailAdapter.get_send_to env project target_type
                 target_identifier event w)
          = set_cache (project_id p) l w.
Proof.
  unfold MailAdapter.get_send_to. destruct project as [p|]; [|by left].
  destruct (MailAdapter.project_teams_exist env p); simpl; [|by left].
  unfold bind at 1.
  assert (Hall :
    snd (let (r, s') :=
           (l <- MailAdapter.get_send_to_all_in_project env p;; ret (PyList l)) w
         in match r with
            | Ok a => ret (to_set a) s'
            | Raise e => (Raise e, s')
            end) = w
    \/ exists l, cache w !! project_id p = None
                 /\ snd (let (r, s') :=
                           (l <- MailAdapter.get_send_to_all_in_project env p;;
                            ret (PyList l)) w
                         in match r with
                            | Ok a => ret (to_set a) s'
                            | Raise e => (Raise e, s')
                            end) = set_cache (project_id p) l w).
  { unfold bind. rewrite get_send_to_all_in_project_run.
    destruct (cache w !! project_id p); simpl; [by left|].
    right. by eexists. }
  destruct target_type; [destruct event as [event|]| |]; simpl;
    try by left.
  - unfold MailAdapter.get_send_to_owners.
    destruct (get_owners env _ _) as [|[|o l]].
    + destruct Hall as [?|(l & ? & ?)]; [by left|]. right. by exists p, l.
    + by left.
    + rewrite owners_fold. by left.
  - destruct Hall as [?|(l & ? & ?)]; [by left|]. right. by exists p, l.
Qed.

(** X12. Resolving a target changes nothing but the cache, and of the
    cache only an entry that was missing: the digest buffer, the queued
    flushes and the messages handed over stay as they were, every cache
    entry that was there is there unchanged, and for MEMBER and TEAM
    targets the world is left as it was. *)
Theorem get_send_to_changes_cache_only (env : Env) (project : option Project)
  (target_type : ActionTargetType) (target_identifier : option Z)
  (event : option Event) (w : World) :
  let w' :=
    snd (MailAdapter.get_send_to env project target_type target_identifier
           event w) in
  timelines w' = timelines w
  /\ delayed w' = delayed w
  /\ outbox w' = outbox w
  /\ (forall k l, cache w !! k = Some l -> cache w' !! k = Some l)
  /\ (target_type <> ISSUE_OWNERS -> w' = w).
Proof.
  intros w'. subst w'.
  destruct (get_send_to_world env project target_type target_identifier
              event w) as [->|(p & l & _ & Htt & Hmiss & ->)].
  - done.
  - simpl. split_and!; try done.
    intros k l0 Hk. rewrite lookup_insert_ne; [done|]. intros <-. congruence.
Qed.

(** ** The dispatcher: what is handed over, and to whom *)

(** X13. For an event whose project has no team, [notify] resolves nobody:
    it hands nothing to the transport, leaves the world as it was and
    returns, even where the transport would raise for every message; and
    [rule_notify], with digests off and no rule arguments, logs
    "dispatched" all the same. *)
Theorem notify_without_teams (env : Env) (notification : Notification)
  (target_type : ActionTargetType) (target_identifier : option Z) (w : World) :
  MailAdapter.project_teams_exist env
    (group_project (event_group (n_event notification))) = false ->
  MailAdapter.notify env notification target_type target_identifier w
  = (Ok tt, w)
  /\ (digests_enabled env (group_project (event_group (n_event notification)))
      = false ->
      MailAdapter.rule_notify env (n_event notification)
        (map (fun rule => {| future_rule := rule; future_kwargs := [] |})
             (n_rules notification))
        target_type target_identifier w
      = (Ok "dispatched", w)).
Proof.
  intros Hteams.
  assert (Hnotify : forall n,
             n_event n = n_event notification ->
             MailAdapter.notify env n target_type target_identifier w
             = (Ok tt, w)).
  { intros n Hn. unfold MailAdapter.notify, bind, MailAdapter.get_send_to.
    rewrite Hn, Hteams. simpl. unfold ret. by rewrite elements_empty. }
  split; [by apply Hnotify|].
  intros Hoff. unfold MailAdapter.rule_notify.
  rewrite collect_rules_ok.
  - simpl. rewrite Hoff. unfold bind. rewrite Hnotify; done.
  - apply Forall_forall. intros f Hin.
    apply list_elem_of_In, in_map_iff in Hin as (rule & <- & _). done.
Qed.

Lemma notify_without_teams_witness :
  MailAdapter.notify (demo_env always_raises by_ownership)
    {| n_event := event_at group120 1 5; n_rules := [rule1] |}
    ISSUE_OWNERS None empty_world
  = (Ok tt, empty_world).
Proof.
  apply (notify_without_teams (demo_env always_raises by_ownership)
           {| n_event := event_at group120 1 5; n_rules := [rule1] |}
           ISSUE_OWNERS None empty_world).
  reflexivity.
Defined.

Lemma handed_over_prefix (env : Env) (mails : list Mail) :
  handed_over env mails `prefix_of` mails.
Proof.
  induction mails as [|m l IH]; simpl; [done|].
  apply prefix_cons. destruct (send_async_raises env m); [|done].
  apply prefix_nil.
Qed.

(** X14. [notify] writes to the users it resolved and to nobody twice:
    every message it hands to the transport is the alert for one resolved
    recipient, addressed to that recipient alone, and no two messages have
    the same recipient.  It leaves the digest buffer and the queued flushes
    as they were. *)
Theorem notify_one_message_per_recipient (env : Env)
  (notification : Notification) (target_type : ActionTargetType)
  (target_identifier : option Z) (w : World) :
  exists (s : gset Z) (w1 : World) (new : list Mail),
    MailAdapter.get_send_to env
      (Some (group_project (event_group (n_event notification))))
      target_type target_identifier (Some (n_event notification)) w
    = (Ok s, w1)
    /\ snd (MailAdapter.notify env notification target_type
              target_identifier w)
       = with_outbox (outbox w ++ new) w1
    /\ timelines w1 = timelines w /\ delayed w1 = delayed w
    /\ NoDup (map mail_to new)
    /\ forall m, In m new ->
                 exists u, u ∈ s /\ m = alert_mail notification u
                           /\ mail_to m = [u].
Proof.
  destruct (notify_run env notification target_type target_identifier w)
    as (s & w1 & Hget & Ht & Hd & _ & Hrun).
  exists s, w1,
    (handed_over env (map (alert_mail notification) (elements s))).
  rewrite Hrun. cbn [snd].
  destruct (handed_over_prefix env
              (map (alert_mail notification) (elements s))) as [k Hk].
  split_and!; try done.
  - assert (Hnd : NoDup (map mail_to
                           (map (alert_mail notification) (elements s)))).
    { rewrite map_map. simpl.
      assert (Hinj : Inj (=) (=) (fun u : Z => [u])) by (by intros x y [= ->]).
      apply (NoDup_fmap_2 (fun u : Z => [u])), NoDup_elements. }
    rewrite Hk, map_app in Hnd. by apply NoDup_app in Hnd as [? _].
  - intros m Hin.
    assert (Hin' : In m (map (alert_mail notification) (elements s)))
      by (rewrite Hk; apply in_or_app; by left).
    apply in_map_iff in Hin' as (u & <- & Hu).
    exists u. split_and!; try done.
    by apply elem_of_elements, list_elem_of_In.
Qed.

Lemma collect_rules_raise (futures : list Future) :
  Exists (fun future => future_kwargs future <> []) futures ->
  forall rules, exists msg,
    MailAdapter.collect_rules futures rules = Raise (NotImplementedError msg).
Proof.
  induction futures as [|f l IH]; intros Hex rules.
  - by apply Exists_nil in Hex.
  - simpl. destruct (future_kwargs f) as [|kv kws] eqn:Ek; [|by eexists].
    apply Exists_cons in Hex as [Hf|Hl]; [by rewrite Ek in Hf|].
    by apply IH.
Qed.

(** X15. [rule_notify] raises [NotImplementedError] exactly when one of
    the futures carries arguments, and then it leaves the world as it was;
    otherwise it returns "dispatched" or "digested", or lets through what
    the transport raised. *)
Theorem rule_notify_raises_on_arguments (env : Env) (event : Event)
  (futures : list Future) (target_type : ActionTargetType)
  (target_identifier : option Z) (w : World) :
  let run :=
    MailAdapter.rule_notify env event futures target_type target_identifier w in
  (Exists (fun future => future_kwargs future <> []) futures ->
   exists msg, run = (Raise (NotImplementedError msg), w))
  /\ (Forall (fun future => future_kwargs future = []) futures ->
      fst run = Ok "dispatched" \/ fst run = Ok "digested"
      \/ fst run = Raise TransportError)
  /\ ((exists msg, fst run = Raise (NotImplementedError msg))
      <-> Exists (fun future => future_kwargs future <> []) futures).
Proof.
  intros run.
  assert (Hraise :
    Exists (fun future => future_kwargs future <> []) futures ->
    exists msg, run = (Raise (NotImplementedError msg), w)).
  { intros Hex. subst run. unfold MailAdapter.rule_notify.
    destruct (collect_rules_raise futures Hex []) as (msg & ->).
    by exists msg. }
  assert (Hquiet :
    Forall (fun future => future_kwargs future = []) futures ->
    fst run = Ok "dispatched" \/ fst run = Ok "digested"
    \/ fst run = Raise TransportError).
  { intros Hall. subst run. unfold MailAdapter.rule_notify.
    rewrite (collect_rules_ok futures Hall). simpl.
    destruct (digests_enabled env _).
    - unfold bind, MailAdapter.digests_add, get, modify, ret. simpl.
      destruct (immediate_delivery env _ _ _ _ _); simpl; auto.
    - set (n := {| n_event := event |}).
      destruct (notify_run env n target_type target_identifier w)
        as (s & w1 & _ & _ & _ & _ & Hrun).
      unfold bind. rewrite Hrun. destruct (existsb _ _); simpl; auto. }
  split_and!; [done|done|]. split.
  - intros (msg & Hmsg).
    destruct (decide (Forall (fun future => future_kwargs future = [])
                             futures)) as [Hall|Hnot].
    + destruct (Hquiet Hall) as [H|[H|H]]; rewrite H in Hmsg; discriminate.
    + apply not_Forall_Exists in Hnot; [done|]. intros f. apply _.
  - intros Hex. destruct (Hraise Hex) as (msg & ->). by exists msg.
Qed.

(** X16. The record [max(..., key=timestamp)] picks: there is none exactly
    when there is no record; otherwise it is one of the records, no record
    is more recent, and every record before it is strictly older, so that
    of several most recent records the first is taken. *)
Theorem max_by_timestamp_spec (records : list DigestRecord) :
  (max_by_timestamp records = None <-> records = [])
  /\ forall r, max_by_timestamp records = Some r ->
       (forall x, In x records -> timestamp x <= timestamp r)
       /\ exists older rest,
            records = older ++ r :: rest
            /\ forall x, In x older -> timestamp x < timestamp r.
Proof.
  split.
  - destruct records; simpl; split; done.
  - assert (H : forall l older best mid,
               (forall x, In x older -> timestamp x < timestamp best) ->
               (forall x, In x mid -> timestamp x <= timestamp best) ->
               let r := foldl (fun best x =>
                                 if timestamp best <? timestamp x then x
                                 else best) best l in
               exists older' rest',
                 older ++ best :: mid ++ l = older' ++ r :: rest'
                 /\ (forall x, In x older' -> timestamp x < timestamp r)
                 /\ (forall x, In x rest' -> timestamp x <= timestamp r)).
    { induction l as [|y l IH]; intros older best mid Holder Hmid; simpl.
      - exists older, mid. by rewrite app_nil_r.
      - destruct (timestamp best <? timestamp y) eqn:E.
        + apply Z.ltb_lt in E.
          destruct (IH (older ++ best :: mid) y []) as (o & k & Heq & Ho & Hk).
          { intros x Hin. apply in_app_or in Hin as [Hin|[<-|Hin]].
            - specialize (Holder x Hin). lia.
            - done.
            - specialize (Hmid x Hin). lia. }
          { by intros x []. }
          exists o, k. split; [|done]. rewrite <- Heq. simpl.
          by rewrite <- app_assoc.
        + apply Z.ltb_ge in E.
          destruct (IH older best (mid ++ [y])) as (o & k & Heq & Ho & Hk).
          { done. }
          { intros x Hin. apply in_app_or in Hin as [Hin|[<-|[]]];
              [by apply Hmid|done]. }
          exists o, k. split; [|done]. rewrite <- Heq.
          by rewrite <- app_assoc. }
    intros r Hr. destruct records as [|r0 l]; [done|]. simpl in Hr.
    injection Hr as <-.
    destruct (H l [] r0 []) as (o & k & Heq & Ho & Hk);
      [by intros x [] | by intros x [] |].
    simpl in Heq. split.
    + intros x Hin. rewrite Heq in Hin.
      apply in_app_or in Hin as [Hin|[<-|Hin]].
      * specialize (Ho x Hin). lia.
      * done.
      * by apply Hk.
    + by exists o, k.
Qed.

(** ** User reports *)

Lemma get_participants_keys (users : list User) (settings : SettingsByUser)
  (group : Group) (tbl : list GroupSubscription) (u : Z) :
  is_Some (GroupSubscriptionManager.get_participants users settings group tbl
             !! u) ->
  In u (map user_id users).
Proof.
  intros [r Hr]. rewrite get_participants_lookup in Hr.
  destruct (existsb (fun user => user_id user =? u) users) eqn:Ex;
    [|discriminate].
  apply existsb_exists in Ex as (user & Hin & Heq). apply Z.eqb_eq in Heq.
  apply in_map_iff. eauto.
Qed.

Lemma first_occurrences_spec (l : list Z) :
  forall seen : gset Z,
    NoDup (first_occurrences seen l)
    /\ forall x, In x (first_occurrences seen l) <-> In x l /\ x ∉ seen.
Proof.
  induction l as [|y l IH]; intros seen; simpl.
  - split; [constructor|]. intros x. tauto.
  - case_bool_decide as Hy.
    + destruct (IH seen) as [Hnd Hin]. split; [done|].
      intros x. rewrite Hin. split; [tauto|].
      intros [[<-|?] ?]; [done|tauto].
    + destruct (IH ({[y]} ∪ seen)) as [Hnd Hin]. split.
      * apply NoDup_cons. split; [|done].
        intros Hy'. apply list_elem_of_In, Hin in Hy' as [_ Hy'].
        set_solver.
      * intros x. simpl. rewrite Hin. split.
        -- intros [<-|[? ?]]; [tauto|]. split; [tauto|set_solver].
        -- intros [[<-|?] ?]; [tauto|].
           destruct (decide (x = y)) as [->|Hne]; [tauto|].
           right. split; [done|set_solver].
Qed.

Lemma participants_items_spec (users : list User) (participants : gmap Z Z) :
  NoDup (map fst (participants_items users participants))
  /\ forall u r,
       In (u, r) (participants_items users participants)
       <-> In u (map user_id users) /\ participants !! u = Some r.
Proof.
  unfold participants_items.
  destruct (first_occurrences_spec (map user_id users) ∅) as [Hnd Hin].
  set (keys := first_occurrences ∅ (map user_id users)) in *.
  assert (Hkeys : forall u, In u keys <-> In u (map user_id users)).
  { intros u. rewrite Hin. split; [tauto|]. intros ?. split; [done|set_solver]. }
  clearbody keys. split.
  - clear Hkeys Hin. induction keys as [|k keys IH]; simpl; [constructor|].
    apply NoDup_cons in Hnd as [Hk Hnd]. specialize (IH Hnd).
    destruct (participants !! k) as [r|] eqn:E; simpl; [|done].
    apply NoDup_cons. split; [|done].
    intros Hin. apply list_elem_of_In, in_map_iff in Hin as ([k' r'] & Heq & Hin).
    simpl in Heq. subst k'.
    apply list_elem_of_In, list_elem_of_omap in Hin as (k' & Hk' & Hsome).
    destruct (participants !! k'); simplify_eq/=. done.
  - intros u r. rewrite <- Hkeys. rewrite <- list_elem_of_In.
    rewrite list_elem_of_omap. split.
    + intros (k & Hk & Hsome).
      destruct (participants !! k) eqn:E; simplify_eq/=.
      split; [by apply list_elem_of_In|done].
    + intros [Hu Hr]. exists u. split; [by apply list_elem_of_In|].
      by rewrite Hr.
Qed.

Section UserReportHandler.
Import UserReports.
Variable renv : ReportEnv.

Lemma send_reports_prefix (mails : list ReportMail) :
  snd (send_reports renv mails) `prefix_of` mails
  /\ (existsb (report_send_raises renv) mails = false ->
      send_reports renv mails = (Returned, mails)).
Proof.
  induction mails as [|m l [IHp IHq]]; simpl; [done|].
  destruct (report_send_raises renv m); simpl.
  - split; [|done]. apply prefix_cons, prefix_nil.
  - destruct (send_reports renv l) as [o sent]. simpl in *.
    split; [by apply prefix_cons|].
    intros Hq. specialize (IHq Hq). by simplify_eq.
Qed.

End UserReportHandler.

(** X18. [handle_user_report] writes to the participants of the issue and
    to nobody else: without participants it hands nothing to the transport
    and returns; every message it hands over is addressed to one
    participant alone, refers to the issue, and gives as the reason the
    description of that participant's reason, or "are subscribed to this
    issue" where the reason has none; no participant is written to twice;
    and when the transport raises for no message, every participant is
    written to.  [handle_signal] does this for the signal
    "user-reports.created" and nothing for any other. *)
Theorem handle_user_report_spec (renv : ReportEnv) (payload : UserReport)
  (project : Project) (tbl : list GroupSubscription) (group : Group) :
  report_groups renv !! report_issue_id payload = Some group ->
  let participants :=
    GroupSubscriptionManager.get_participants (report_users renv group)
      (report_settings renv group) group tbl in
  let run := UserReports.handle_user_report renv payload project tbl in
  (participants = ∅ -> run = (Returned, []))
  /\ NoDup (map rm_to (snd run))
  /\ (forall m, In m (snd run) ->
        exists u r,
          participants !! u = Some r
          /\ rm_to m = [u]
          /\ rm_reference m = group
          /\ rm_reason m
             = default "are subscribed to this issue" (descriptions !! r))
  /\ ((forall m, report_send_raises renv m = false) ->
      fst run = Returned
      /\ forall u r, participants !! u = Some r ->
                     exists m, In m (snd run) /\ rm_to m = [u])
  /\ (forall name,
        UserReports.handle_signal renv name payload project tbl
        = if String.eqb name "user-reports.created" then run
          else (Returned, [])).
Proof.
  intros Hgroup participants run. subst run.
  unfold UserReports.handle_user_report. rewrite Hgroup. cbv zeta.
  fold participants.
  destruct (participants_items_spec (report_users renv group) participants)
    as [Hnd Hitems].
  set (items := participants_items (report_users renv group) participants) in *.
  set (mail := fun item : Z * Z => {| rm_to := [fst item] |}).
  assert (Hmember : forall u r, participants !! u = Some r ->
                                In (u, r) items).
  { intros u r Hr. apply Hitems. split; [|done].
    apply (get_participants_keys (report_users renv group)
             (report_settings renv group) group tbl u). by exists r. }
  split_and!.
  - intros Hempty. by rewrite bool_decide_true.
  - case_bool_decide; [constructor|].
    destruct (send_reports_prefix renv (map mail items)) as [[k Hk] _].
    assert (Hall : NoDup (map rm_to (map mail items))).
    { rewrite map_map. simpl.
      assert (Hinj : Inj (=) (=) (fun u : Z => [u])) by (by intros x y [= ->]).
      rewrite <- (map_map fst (fun u : Z => [u])).
      by apply (NoDup_fmap_2 (fun u : Z => [u])). }
    rewrite Hk, map_app in Hall. by apply NoDup_app in Hall as [? _].
  - case_bool_decide; [by intros m []|].
    destruct (send_reports_prefix renv (map mail items)) as [[k Hk] _].
    intros m Hin.
    assert (Hin' : In m (map mail items))
      by (rewrite Hk; apply in_or_app; by left).
    apply in_map_iff in Hin' as ([u r] & <- & Hur).
    exists u, r. split_and!; try done. by apply Hitems in Hur as [_ ?].
  - intros Hquiet. case_bool_decide as Hempty.
    + split; [done|]. intros u r Hr. rewrite Hempty in Hr.
      by rewrite lookup_empty in Hr.
    + destruct (send_reports_prefix renv (map mail items)) as [_ Hq].
      rewrite Hq.
      * split; [done|]. intros u r Hr. exists (mail (u, r)).
        split; [|done]. apply in_map. by apply Hmember.
      * apply not_true_iff_false. intros Hex.
        apply existsb_exists in Hex as (m & _ & Hm).
        by rewrite Hquiet in Hm.
  - intros name. unfold UserReports.handle_signal,
      UserReports.handle_user_report. by rewrite Hgroup.
Qed.

Lemma handle_user_report_spec_witness :
  NoDup (map rm_to
           (snd (UserReports.handle_user_report (demo_report_env (fun _ => false))
                   demo_report project10 participants_table))).
Proof.
  apply (handle_user_report_spec (demo_report_env (fun _ => false)) demo_report
           project10 participants_table group100).
  reflexivity.
Defined.

(** The feedback for issue 100 goes to users 2 and 4, in the order of the
    users of the project, each with the description of their reason; the
    empty project prefix gives way to the global one. *)
Example handle_user_report_run :
  UserReports.handle_user_report (demo_report_env (fun _ => false)) demo_report
    project10 participants_table
  = (Returned,
     map (fun item : Z * string =>
            {| rm_subject := "[Sentry] DEMO-1 - New Feedback from Ada";
               rm_template := "sentry/emails/activity/new-user-feedback.txt";
               rm_html_template :=
                 "sentry/emails/activity/new-user-feedback.html";
               rm_type := "notify.user-report";
               rm_reference := group100;
               rm_reason := snd item;
               rm_unsubscribe := (fst item, 100);
               rm_to := [fst item] |})
         [(2, "have opted to receive updates for all issues within projects that you are a member of");
          (4, "have bookmarked this issue")]).
Proof. vm_compute. reflexivity. Qed.

(** X19. When every requested user already has a row for the issue, and
    in particular when no user is requested, [bulk_subscribe] inserts
    nothing and succeeds on its first attempt, whatever other workers
    commit meanwhile: the table it leaves is the table with their
    commits. *)
Theorem bulk_subscribe_nothing_to_do (group : Group) (user_ids : list Z)
  (reason : Z) (st : Store) :
  (forall u, In u user_ids ->
     exists row, In row (table st) /\ sub_user row = u
                 /\ sub_group row = group_id group
                 /\ sub_project row = project_id (group_project group)) ->
  let run := GroupSubscriptionManager.bulk_subscribe group user_ids reason st in
  fst run = Ok (Some true)
  /\ (exists a, attempts (snd run) = attempts st ++ [a] /\ inserted a = []
                /\ conflict a = false)
  /\ table (snd run) = table (snd (GroupSubscriptionManager.commit_others st)).
Proof.
  intros Hrows run. subst run.
  unfold GroupSubscriptionManager.bulk_subscribe.
  set (ids := list_to_set user_ids : gset Z).
  rewrite bulk_subscribe_loop_step.
  assert (Hnew : GroupSubscriptionManager.new_subscriptions group ids
                   (GroupSubscriptionManager.existing_subscriptions group ids
                      (table st)) reason = []).
  { apply new_subscriptions_nil. intros u Hu.
    apply elem_of_existing_subscriptions. split; [done|].
    apply Hrows. apply list_elem_of_In. by apply elem_of_list_to_set in Hu. }
  assert (Hins : inserted (attempt_of group ids reason st) = [])
    by exact Hnew.
  assert (Hc : conflict (attempt_of group ids reason st) = false).
  { unfold attempt_of. cbn [conflict]. by rewrite Hnew. }
  rewrite Hc. cbn [fst snd]. split_and!.
  - done.
  - by exists (attempt_of group ids reason st).
  - unfold after_attempt. rewrite Hc, Hins. cbn [table].
    by rewrite app_nil_r.
Qed.

Lemma bulk_subscribe_nothing_to_do_witness :
  fst (GroupSubscriptionManager.bulk_subscribe group100 [1; 4]
         GroupSubscriptionReason.mentioned quiet_store) = Ok (Some true).
Proof.
  apply (bulk_subscribe_nothing_to_do group100 [1; 4]
           GroupSubscriptionReason.mentioned quiet_store).
  intros u [<-|[<-|[]]].
  - exists {| sub_project := 10; sub_group := 100; sub_user := 1;
              is_active := true; reason := GroupSubscriptionReason.comment |}.
    repeat split; simpl; auto.
  - exists {| sub_project := 10; sub_group := 100; sub_user := 4;
              is_active := true; reason := GroupSubscriptionReason.bookmark |}.
    repeat split; simpl; auto.
Defined.
